(** * Novel2Graph: the Project Gutenberg crawler ([gutenberg/crawl.py])

    A shallow embedding of the crawler and the properties of its
    specification.  The coroutines of the source become computations in a
    small monad that threads the state of the outside world (the web
    server) and writes down, in program order, what the crawler does to it:
    the GET requests, the back-off sleeps, the log records and the progress
    updates. *)

From Stdlib Require Import ZArith String Ascii List DecimalString Lia.
From stdpp Require Import gmap strings list.

Open Scope Z_scope.

(* ===================================================================== *)
(** * Text

    A Python [str] is modelled by [string]: a sequence of code points below
    256, which is the range [ISO-8859-1] decodes to. *)
(* ===================================================================== *)

Module Text.

(** The code point of a character. *)
Definition ord (c : ascii) : Z := Z.of_N (N_of_ascii c).

Definition chr (z : Z) : ascii := ascii_of_N (Z.to_N z).

(** [c.isdigit()] for the class [\d]; below 256 the decimal digits are
    [0] to [9]. *)
Definition is_digit (c : ascii) : bool := (48 <=? ord c) && (ord c <=? 57).

(** [c.isspace()]: the characters [str.strip()] removes. *)
Definition is_space (c : ascii) : bool :=
  let n := ord c in
  ((9 <=? n) && (n <=? 13)) || ((28 <=? n) && (n <=? 32))
  || (n =? 133) || (n =? 160).

(** [c.lower()] on one character: the capital letters [A]-[Z] and the
    capital letters of Latin-1 ([0xC0]-[0xDE] but the sign [0xD7]). *)
Definition lower_char (c : ascii) : ascii :=
  let n := ord c in
  if ((65 <=? n) && (n <=? 90))
     || ((192 <=? n) && (n <=? 222) && negb (n =? 215))
  then chr (n + 32) else c.

(** [s.lower()] *)
Fixpoint lower (s : string) : string :=
  match s with
  | EmptyString => EmptyString
  | String c r => String (lower_char c) (lower r)
  end.

(** [s.lstrip()] *)
Fixpoint lstrip (s : string) : string :=
  match s with
  | EmptyString => EmptyString
  | String c r => if is_space c then lstrip r else s
  end.

(** [s.rstrip()] *)
Fixpoint rstrip (s : string) : string :=
  match s with
  | EmptyString => EmptyString
  | String c r =>
      match rstrip r with
      | EmptyString => if is_space c then EmptyString else String c EmptyString
      | r' => String c r'
      end
  end.

(** [s.strip()] *)
Definition strip (s : string) : string := rstrip (lstrip s).

(** [s] holds white space only, and the last character of [s]. *)
Fixpoint all_space (s : string) : bool :=
  match s with
  | EmptyString => true
  | String c r => is_space c && all_space r
  end.

Fixpoint last_char (s : string) : option ascii :=
  match s with
  | EmptyString => None
  | String c r =>
      match last_char r with
      | None => Some c
      | Some d => Some d
      end
  end.

(** [s] neither starts nor ends with white space. *)
Definition trimmed (s : string) : Prop :=
  match s with
  | EmptyString => True
  | String c _ =>
      is_space c = false /\
      exists d, last_char s = Some d /\ is_space d = false
  end.

(** [s.startswith(p)] *)
Fixpoint startswith (p s : string) : bool :=
  match p, s with
  | EmptyString, _ => true
  | String a p', String b s' => Ascii.eqb a b && startswith p' s'
  | String _ _, EmptyString => false
  end.

(** [needle in hay] *)
Fixpoint contains (needle hay : string) : bool :=
  startswith needle hay ||
  match hay with
  | EmptyString => false
  | String _ r => contains needle r
  end.

(** [re.match(r'\d{4}', s)]: four digits at the start of [s]. *)
Definition match_d4 (s : string) : option string :=
  match s with
  | String a (String b (String c (String d _))) =>
      if is_digit a && is_digit b && is_digit c && is_digit d
      then Some (String a (String b (String c (String d EmptyString))))
      else None
  | _ => None
  end.

(** [re.search(r'\d{4}', s)]: the match at the leftmost position of [s]
    that starts four digits in a row, or [None] when there is none. *)
Fixpoint search_d4 (s : string) : option string :=
  match match_d4 s with
  | Some y => Some y
  | None =>
      match s with
      | EmptyString => None
      | String _ r => search_d4 r
      end
  end.

(** [s.split('/')[-1]]: what follows the last slash ([s] itself when it has
    none).  [acc] is the segment read so far. *)
Fixpoint last_segment_from (acc s : string) : string :=
  match s with
  | EmptyString => acc
  | String c r =>
      if Ascii.eqb c "/" then last_segment_from EmptyString r
      else last_segment_from (acc +:+ String c EmptyString) r
  end.

Definition last_segment (s : string) : string := last_segment_from EmptyString s.

(** [str(i)] for an integer. *)
Definition str (i : Z) : string := NilZero.string_of_int (Z.to_int i).

(** Python's truth value of [text], a string or [None]: [None] and the
    empty string are false. *)
Definition truthy (text : option string) : bool :=
  match text with
  | Some (String _ _) => true
  | Some EmptyString | None => false
  end.

(** [re.sub(r'[^\x00-\x7F]+', ' ', s)]: every maximal run of characters
    from 128 on becomes one space.  [in_run] says that the character before
    was one of them. *)
Fixpoint sub_non_ascii (in_run : bool) (s : string) : string :=
  match s with
  | EmptyString => EmptyString
  | String c r =>
      if 128 <=? ord c
      then (if in_run then sub_non_ascii true r
            else String " " (sub_non_ascii true r))
      else String c (sub_non_ascii false r)
  end.

(** [re.sub(r'[\x00-\x1F\x7F-\x9F]+', '', s)] *)
Fixpoint sub_control (s : string) : string :=
  match s with
  | EmptyString => EmptyString
  | String c r =>
      let n := ord c in
      if (n <=? 31) || ((127 <=? n) && (n <=? 159))
      then sub_control r else String c (sub_control r)
  end.

(** [s.replace(a, b)] for single characters [a] and [b]. *)
Fixpoint replace (a b : ascii) (s : string) : string :=
  match s with
  | EmptyString => EmptyString
  | String c r => String (if Ascii.eqb c a then b else c) (replace a b r)
  end.

End Text.

Import Text.

(* ===================================================================== *)
(** * Data *)
(* ===================================================================== *)

(** What [aiohttp] hands back for a response: the status, what
    [response.text()] gives ([None] when it raises [UnicodeDecodeError]) and
    the bytes [response.read()] gives. *)
Record Response := {
  status : Z;
  text : option string;
  read : list Byte.byte
}.

(** How one [session.get(url, timeout=timeout)] ends: the [async with]
    block raises [asyncio.TimeoutError], raises any other exception (with
    its [str(e)]), or holds a response. *)
Inductive Outcome :=
| TimeoutError
| ClientError (e : string)
| Responded (response : Response).

Inductive Level := INFO | WARNING | ERROR.

(** What the crawler does that can be seen from outside, in program order. *)
Inductive Event :=
| EGet (url : string)                  (* session.get(url, ...) *)
| ESleep (seconds : Z)                 (* asyncio.sleep(seconds) *)
| ELog (level : Level) (msg : string)  (* logging.info / warning / error *)
| ETask (book_id : string)             (* tasks.append(download_books(...)) *)
| ETqdm (total : nat)                  (* tqdm(total=..., desc=...) *)
| EUpdate                              (* progress.update(1) *)
| EClose                               (* progress.close() *)
| EPrint (msg : string).               (* print(msg) *)

(** A row [tr] of the table: the text of its first [th] and of its first
    [td], when it has one. *)
Record Row := { th : option string; td : option string }.

(** A listing entry [li.booklink]: the [href] of its link [book.a], and the
    text of its [span.title] and [span.subtitle] when it has them. *)
Record BookElement := {
  a_href : string;
  span_title : option string;
  span_subtitle : option string
}.

Record Metadata := { year : string; language : string }.

(** The dictionary [download_books] returns. *)
Record BookRecord := {
  ID : string;
  Title : string;
  Author : string;
  Year : string;
  Text : string
}.

(** The outside world: the state of the web server, how it answers one GET,
    and what [BeautifulSoup] finds in a page. *)
Class Web := {
  World : Type;
  (* async with session.get(url, timeout=timeout) as response *)
  serve : string -> World -> Outcome * World;
  (* soup.select('li.booklink') *)
  select_booklink : string -> list BookElement;
  (* soup.find('a', string='Next'), as its ['href'] *)
  find_next : string -> option string;
  (* soup.find('table', class_='bibrec') and its find_all('tr') *)
  find_bibrec : string -> option (list Row)
}.

(* ===================================================================== *)
(** * The monad of the coroutines *)
(* ===================================================================== *)

Section Monad.
Context `{Web}.

(** A computation takes the world and gives its result, the events it
    caused and the world it leaves. *)
Definition M (A : Type) : Type := World -> A * list Event * World.

Definition ret {A} (a : A) : M A := fun w => (a, [], w).

Definition bind {A B} (m : M A) (k : A -> M B) : M B :=
  fun w =>
    let '(a, t1, w1) := m w in
    let '(b, t2, w2) := k a w1 in
    (b, t1 ++ t2, w2).

Definition emit (e : Event) : M unit := fun w => (tt, [e], w).

End Monad.

Declare Scope crawl_scope.
Delimit Scope crawl_scope with crawl.
Notation "x <- m ;; k" := (bind m (fun x => k))
  (at level 100, m at next level, right associativity) : crawl_scope.
Notation "m ;; k" := (bind m (fun _ => k))
  (at level 100, right associativity) : crawl_scope.
Open Scope crawl_scope.

(** The result, the events and the final world of a run. *)
Definition result {W A} (r : A * list Event * W) : A := fst (fst r).
Definition events {W A} (r : A * list Event * W) : list Event := snd (fst r).
Definition final {W A} (r : A * list Event * W) : W := snd r.

(** The URLs requested and the seconds slept, in order. *)
Definition gets (t : list Event) : list string :=
  omap (fun e => match e with EGet u => Some u | _ => None end) t.

Definition sleeps (t : list Event) : list Z :=
  omap (fun e => match e with ESleep n => Some n | _ => None end) t.

Definition tasks_of (t : list Event) : list string :=
  omap (fun e => match e with ETask b => Some b | _ => None end) t.

Definition logs (t : list Event) : list (Level * string) :=
  omap (fun e => match e with ELog l m => Some (l, m) | _ => None end) t.

(* ===================================================================== *)
(** * The crawler *)
(* ===================================================================== *)

Section Crawler.
Context `{Web}.

(** [range(n)] *)
Definition range (n : Z) : list Z := Z.of_nat <$> seq 0 (Z.to_nat n).

Definition log (level : Level) (msg : string) : M unit := emit (ELog level msg).

Definition sleep (seconds : Z) : M unit := emit (ESleep seconds).

(** [session.get(url, timeout=timeout)]: one request, answered by the
    server. *)
Definition session_get (url : string) : M Outcome :=
  fun w => let '(o, w') := serve url w in (o, [EGet url], w').

(** ** [fetch_text] *)

Definition retries : Z := 3.

(** What follows the [try] statement in the loop of [fetch_text]. *)
Definition backoff (attempt : Z) : M unit :=
  if attempt <? retries - 1 then sleep (2 ^ attempt) else ret tt.

(** The loop [for attempt in range(retries)] of [fetch_text], over the
    attempts that are left. *)
Fixpoint fetch_text_loop (url : string) (attempts : list Z) : M (option string) :=
  match attempts with
  | [] => ret None
  | attempt :: rest =>
      o <- session_get url ;;
      match o with
      | Responded response =>
          if status response =? 200 then
            match text response with
            | Some s => ret (Some s)
            | None =>
                (* except UnicodeDecodeError *)
                let raw_text := read response in
                ret (Some (string_of_list_byte raw_text))
            end
          else
            log ERROR ("Failed to fetch " +:+ url +:+ ": Status code "
                       +:+ str (status response)) ;;
            (* continue *)
            fetch_text_loop url rest
      | TimeoutError =>
          log WARNING ("Timeout occurred when fetching " +:+ url) ;;
          backoff attempt ;;
          fetch_text_loop url rest
      | ClientError e =>
          log ERROR ("Error fetching " +:+ url +:+ ": " +:+ e) ;;
          backoff attempt ;;
          fetch_text_loop url rest
      end
  end.

Definition fetch_text (url : string) : M (option string) :=
  fetch_text_loop url (range retries).

(** ** [get_book_data] *)

Definition extensions : list string := ["epub"; "html"; "pdf"; "txt"; "txt.utf8"].

(** A [for] loop whose body may [return]: the body gives [Some] of the
    value returned, or [None] to go on with the next element. *)
Fixpoint for_return {A B} (xs : list A) (body : A -> M (option B)) : M (option B) :=
  match xs with
  | [] => ret None
  | x :: rest =>
      r <- body x ;;
      match r with
      | Some b => ret (Some b)
      | None => for_return rest body
      end
  end.

(** The body of the loops over [extensions]; [path] is the URL up to the
    dot before the extension. *)
Definition try_extension (fetch : string -> M (option string))
    (path ext : string) : M (option string) :=
  let url := path +:+ "." +:+ ext in
  r <- (if bool_decide (ext ∈ ["epub"; "html"]) then
          let url_no_images := path +:+ "." +:+ ext +:+ ".noimages" in
          text <- fetch url_no_images ;;
          if truthy text then
            log INFO ("Found valid text at " +:+ url_no_images) ;;
            ret text
          else ret None
        else ret None) ;;
  match r with
  | Some text => ret (Some text)
  | None =>
      text <- fetch url ;;
      if truthy text then
        log INFO ("Found valid text at " +:+ url) ;;
        ret text
      else
        log INFO ("No valid text at " +:+ url) ;;
        ret None
  end.

(** [get_book_data], over the function that fetches the text of a URL. *)
Definition get_book_data_with (fetch : string -> M (option string))
    (book_id : string) : M (option string) :=
  let base_url := "https://www.gutenberg.org/files/" +:+ book_id in
  r <- for_return (range 10) (fun i =>
         for_return extensions (fun ext =>
           try_extension fetch
             (base_url +:+ "/" +:+ book_id +:+ "-" +:+ str i) ext)) ;;
  match r with
  | Some text => ret (Some text)
  | None =>
      r <- for_return extensions (fun ext =>
             try_extension fetch (base_url +:+ "/" +:+ book_id) ext) ;;
      match r with
      | Some text => ret (Some text)
      | None =>
          log WARNING ("Book ID " +:+ book_id +:+ ": All URL patterns failed.") ;;
          ret None
      end
  end.

Definition get_book_data : string -> M (option string) :=
  get_book_data_with fetch_text.

(** ** [get_book_metadata] *)

(** The body of the loop over the rows of the table. *)
Definition read_row (metadata : Metadata) (row : Row) : Metadata :=
  let th_text := default EmptyString (th row) in
  let td_text := default EmptyString (td row) in
  let metadata :=
    if contains "Release Date" th_text then
      match search_d4 td_text with
      | Some year_match => {| year := year_match; language := language metadata |}
      | None => metadata
      end
    else metadata in
  if contains "Language" th_text then
    {| year := year metadata; language := strip td_text |}
  else metadata.

Definition unknown : Metadata := {| year := "Unknown"; language := "Unknown" |}.

Definition get_book_metadata (book_id : string) : M Metadata :=
  let url := "https://www.gutenberg.org/ebooks/" +:+ book_id in
  let metadata := unknown in
  text <- fetch_text url ;;
  if truthy text then
    match find_bibrec (default EmptyString text) with
    | Some rows => ret (fold_left read_row rows metadata)
    | None => ret metadata
    end
  else ret metadata.

(** ** [download_books] *)

Definition book_id_of (book : BookElement) : string := last_segment (a_href book).

Definition download_books (book : BookElement) : M (option BookRecord) :=
  let book_id := book_id_of book in
  metadata <- get_book_metadata book_id ;;
  if negb (String.eqb (lower (language metadata)) "english") then
    emit EUpdate ;;
    ret None
  else
    let title := default "No Title" (span_title book) in
    let author := default "Unknown Author" (span_subtitle book) in
    text <- get_book_data book_id ;;
    emit EUpdate ;;
    if truthy text then
      ret (Some {| ID := book_id; Title := title; Author := author;
                   Year := year metadata; Text := default EmptyString text |})
    else ret None.

(** ** [get_books_list] *)

(** The loop [for book in book_elements]: the tasks appended and the set of
    processed ids. *)
Fixpoint schedule (book_elements : list BookElement)
    (tasks : list (M (option BookRecord))) (processed_books : gset string)
    : M (list (M (option BookRecord)) * gset string) :=
  match book_elements with
  | [] => ret (tasks, processed_books)
  | book :: rest =>
      let book_id := book_id_of book in
      if bool_decide (book_id ∉ processed_books) then
        emit (ETask book_id) ;;
        schedule rest (tasks ++ [download_books book]) ({[book_id]} ∪ processed_books)
      else schedule rest tasks processed_books
  end.

(** [asyncio.gather( *tasks )]: the tasks run one after the other, in the
    order of the list, which is also the order of the results. *)
Fixpoint gather {A} (tasks : list (M A)) : M (list A) :=
  match tasks with
  | [] => ret []
  | task :: rest =>
      r <- task ;;
      rs <- gather rest ;;
      ret (r :: rs)
  end.

Definition index_url0 : string :=
  "https://www.gutenberg.org/ebooks/search/?sort_order=downloads&languages=en".

(** One turn of the loop on a page that lists [book_elements]: from the
    progress bar to [progress.close()].  It gives the books and the
    processed ids after the page. *)
Definition process_page (book_elements : list BookElement)
    (books : list BookRecord) (processed_books : gset string)
    : M (list BookRecord * gset string) :=
  emit (ETqdm (length book_elements)) ;;
  scheduled <- schedule book_elements [] processed_books ;;
  let '(tasks, processed_books) := scheduled in
  results <- gather tasks ;;
  let books := books ++ omap id results in
  emit EClose ;;
  ret (books, processed_books).

(** The loop [while True] of [get_books_list], for at most [fuel] turns:
    [None] when the loop is still running after them. *)
Fixpoint walk (fuel : nat) (index_url : string) (books : list BookRecord)
    (processed_books : gset string) : M (option (list BookRecord)) :=
  match fuel with
  | O => ret None
  | S fuel =>
      text <- fetch_text index_url ;;
      if truthy text then
        let soup := default EmptyString text in
        let book_elements := select_booklink soup in
        match book_elements with
        | [] => ret (Some books)   (* break *)
        | _ :: _ =>
            page <- process_page book_elements books processed_books ;;
            let '(books, processed_books) := page in
            match find_next soup with
            | Some href =>
                walk fuel ("https://www.gutenberg.org" +:+ href) books processed_books
            | None => ret (Some books)   (* break *)
            end
        end
      else walk fuel index_url books processed_books
  end.

Definition get_books_list (fuel : nat) : M (option (list BookRecord)) :=
  walk fuel index_url0 [] ∅.

(** ** [clean_text], [save_to_csv] and the entry point *)

Definition clean_text (text : string) : string :=
  let text := sub_non_ascii false text in
  let text := sub_control text in
  replace (chr 9) " " (replace (chr 10) " " (replace (chr 13) " " text)).

Definition artifact : string := "gutenberg_books.tsv".

(** [save_to_csv]: the file holds one row for each book, its [Text]
    cleaned.  The frame of an empty list has no column ['Text'], and
    [df['Text']] raises [KeyError] ([None]) before anything is written. *)
Definition save_to_csv (books : list BookRecord)
    (files : gmap string (list BookRecord)) : option (gmap string (list BookRecord)) :=
  match books with
  | [] => None
  | _ :: _ =>
      let df := (fun b => {| ID := ID b; Title := Title b; Author := Author b;
                             Year := Year b; Text := clean_text (Text b) |}) <$> books in
      Some (<[artifact := df]> files)
  end.

(** How the script ends: normally, or with an exception; in both cases
    with the files it leaves. *)
Inductive Exit :=
| Returned (files : gmap string (list BookRecord))
| Raised (files : gmap string (list BookRecord)).

(** The block under [if __name__ == "__main__"]; [None] when
    [get_books_list] is still running after [fuel] turns of its loop. *)
Definition main (fuel : nat) (files : gmap string (list BookRecord)) : M (option Exit) :=
  if bool_decide (files !! artifact = None) then
    books <- get_books_list fuel ;;
    match books with
    | None => ret None
    | Some books =>
        match save_to_csv books files with
        | Some files' => ret (Some (Returned files'))
        | None => ret (Some (Raised files))
        end
    end
  else
    emit (EPrint "Data already downloaded.") ;;
    ret (Some (Returned files)).

End Crawler.

(* ===================================================================== *)
(** * What the specification says, in its own words *)
(* ===================================================================== *)

Section Specification.
Context `{Web}.

(** The formats of a path, by priority. *)
Definition formats : list string :=
  [".epub.noimages"; ".epub"; ".html.noimages"; ".html"; ".pdf"; ".txt"; ".txt.utf8"].

(** The directory of the files of a book, and the path of a version in it
    up to the format. *)
Definition directory (book_id : string) : string :=
  "https://www.gutenberg.org/files/" +:+ book_id.

Definition versioned (book_id : string) (i : Z) : string :=
  directory book_id +:+ "/" +:+ book_id +:+ "-" +:+ str i.

Definition unversioned (book_id : string) : string :=
  directory book_id +:+ "/" +:+ book_id.

(** The candidate URLs of a book: versions 0 to 9, each in the order of
    [formats], then the path without a version, in the same order. *)
Definition candidates (book_id : string) : list string :=
  flat_map (fun i => (fun f => versioned book_id i +:+ f) <$> formats) (range 10)
  ++ ((fun f => unversioned book_id +:+ f) <$> formats).

(** Probe the URLs in order: the content of the first probe that yields
    some is returned and nothing after it is probed; [None] when no probe
    yields content. *)
Fixpoint first_success (fetch : string -> M (option string)) (urls : list string)
    : M (option string) :=
  match urls with
  | [] => ret None
  | url :: rest =>
      text <- fetch url ;;
      if truthy text then ret text else first_success fetch rest
  end.

(** The requests and the sleeps among the events. *)
Definition net (t : list Event) : list Event :=
  List.filter (fun e => match e with EGet _ | ESleep _ => true | _ => false end) t.

(** The answers of the server to [n] requests of [url] in a row. *)
Fixpoint served (url : string) (w : World) (n : nat) : list Outcome :=
  match n with
  | O => []
  | S n => let '(o, w') := serve url w in o :: served url w' n
  end.

(** An attempt that ended in an exception. *)
Definition raised (o : Outcome) : bool :=
  match o with
  | TimeoutError | ClientError _ => true
  | Responded _ => false
  end.

(** An attempt answered with the status 200. *)
Definition succeeded (o : Outcome) : bool :=
  match o with
  | Responded response => status response =? 200
  | _ => false
  end.

(** What a row of the table says of the year and of the language. *)
Definition year_of (row : Row) : option string :=
  if contains "Release Date" (default EmptyString (th row))
  then search_d4 (default EmptyString (td row)) else None.

Definition language_of (row : Row) : option string :=
  if contains "Language" (default EmptyString (th row))
  then Some (strip (default EmptyString (td row))) else None.

(** [y] is the first run of four digits of [s]. *)
Definition first_d4 (s y : string) : Prop :=
  exists p q, s = p +:+ y +:+ q /\ match_d4 y = Some y /\
    forall p' r, s = p' +:+ r -> match_d4 r <> None -> (String.length p <= String.length p')%nat.

(** A candidate with its kind: [true] for a plain URL, [false] for a
    no-images variant. *)
Definition variants (path ext : string) : list (string * bool) :=
  (if bool_decide (ext ∈ ["epub"; "html"])
   then [(path +:+ "." +:+ ext +:+ ".noimages", false)] else [])
  ++ [(path +:+ "." +:+ ext, true)].

Definition tagged_candidates (book_id : string) : list (string * bool) :=
  flat_map (fun i => flat_map (variants (versioned book_id i)) extensions) (range 10)
  ++ flat_map (variants (unversioned book_id)) extensions.

(** One probe of the Locator: the content found is logged and returned; a
    probe that yields nothing is logged when the URL is a plain one. *)
Definition probe (fetch : string -> M (option string)) (c : string * bool)
    : M (option string) :=
  text <- fetch (fst c) ;;
  if truthy text then
    log INFO ("Found valid text at " +:+ fst c) ;; ret text
  else if snd c then
    log INFO ("No valid text at " +:+ fst c) ;; ret None
  else ret None.

(** The Locator of the specification: the candidates probed in order, and
    the warning when all fail. *)
Definition locate (fetch : string -> M (option string)) (book_id : string)
    : M (option string) :=
  r <- for_return (tagged_candidates book_id) (probe fetch) ;;
  match r with
  | Some text => ret (Some text)
  | None =>
      log WARNING ("Book ID " +:+ book_id +:+ ": All URL patterns failed.") ;;
      ret None
  end.

(** A fetch whose empty text is turned into [None]. *)
Definition absent_if_empty (fetch : string -> M (option string)) (url : string)
    : M (option string) :=
  text <- fetch url ;;
  if truthy text then ret text else ret None.

(** The walk reaches, after [n] pages fetched and processed, a page
    without entries or without a next link; every page on the way is
    fetched with a text that is not empty. *)
Inductive stops_within : nat -> string -> list BookRecord -> gset string -> World -> Prop :=
| stops_no_entries n url books processed w page :
    result (fetch_text url w) = Some page ->
    truthy (Some page) = true ->
    select_booklink page = [] ->
    stops_within (S n) url books processed w
| stops_no_next n url books processed w page :
    result (fetch_text url w) = Some page ->
    truthy (Some page) = true ->
    select_booklink page <> [] ->
    find_next page = None ->
    stops_within (S n) url books processed w
| stops_later n url books processed w page href :
    result (fetch_text url w) = Some page ->
    truthy (Some page) = true ->
    select_booklink page <> [] ->
    find_next page = Some href ->
    (let r := process_page (select_booklink page) books processed
                (final (fetch_text url w)) in
     stops_within n ("https://www.gutenberg.org" +:+ href)
       (fst (result r)) (snd (result r)) (final r)) ->
    stops_within (S n) url books processed w.

(** The filter of [download_books] on the language of the metadata. *)
Definition english (metadata : Metadata) : bool :=
  String.eqb (lower (language metadata)) "english".

(** What [fetch_text] does to the world: requests of its URL, sleeps, and
    log records that are warnings or errors. *)
Definition transport_event (url : string) (e : Event) : Prop :=
  match e with
  | EGet u => u = url
  | ESleep _ => True
  | ELog level _ => level <> INFO
  | _ => False
  end.

(** The entries of a page that the loop schedules: those whose id is
    neither processed nor the id of an entry before them. *)
Fixpoint fresh (processed : gset string) (book_elements : list BookElement)
    : list BookElement :=
  match book_elements with
  | [] => []
  | book :: rest =>
      if bool_decide (book_id_of book ∉ processed)
      then book :: fresh ({[book_id_of book]} ∪ processed) rest
      else fresh processed rest
  end.

(** Events without a task appended. *)
Definition no_task (t : list Event) : Prop := tasks_of t = [].

(** ** The words of the claims, without the functions of the model *)

(** [s] is the word "english", each letter in lower or in upper case. *)
Definition english_ignoring_case (s : string) : Prop :=
  exists c1 c2 c3 c4 c5 c6 c7,
    s = String c1 (String c2 (String c3 (String c4 (String c5 (String c6
          (String c7 EmptyString)))))) /\
    (c1 = "e" \/ c1 = "E")%char /\ (c2 = "n" \/ c2 = "N")%char /\
    (c3 = "g" \/ c3 = "G")%char /\ (c4 = "l" \/ c4 = "L")%char /\
    (c5 = "i" \/ c5 = "I")%char /\ (c6 = "s" \/ c6 = "S")%char /\
    (c7 = "h" \/ c7 = "H")%char.

(** [needle] occurs in [hay]. *)
Definition occurs_in (needle hay : string) : Prop :=
  exists p q, hay = p +:+ needle +:+ q.

(** A decimal digit, and four of them. *)
Definition decimal (c : ascii) : Prop :=
  In c ["0"; "1"; "2"; "3"; "4"; "5"; "6"; "7"; "8"; "9"]%char.

Definition four_digits (y : string) : Prop :=
  exists a b c d,
    y = String a (String b (String c (String d EmptyString))) /\
    decimal a /\ decimal b /\ decimal c /\ decimal d.

(** [y] is the first run of four digits in [s]: four digits in a row of
    [s], none starting before them. *)
Definition first_four_digits (s y : string) : Prop :=
  four_digits y /\
  exists p q, s = p +:+ y +:+ q /\
    forall p' y' q', s = p' +:+ y' +:+ q' -> four_digits y' ->
                     (String.length p <= String.length p')%nat.

(** [s] holds no four digits in a row. *)
Definition no_four_digits (s : string) : Prop :=
  forall p y q, s = p +:+ y +:+ q -> ~ four_digits y.

(** White space, by its code points: the tabulations and line breaks 9 to
    13, the separators 28 to 31, the space, the next line 133 and the
    no-break space 160. *)
Definition white (c : ascii) : Prop :=
  In (N_of_ascii c) [9; 10; 11; 12; 13; 28; 29; 30; 31; 32; 133; 160]%N.

Definition white_string (s : string) : Prop :=
  forall c, In c (list_ascii_of_string s) -> white c.

(** [t] is [s] trimmed: [s] without the white space at its two ends, so
    that [t] neither starts nor ends with white space. *)
Definition trimmed_of (s t : string) : Prop :=
  (exists l r, s = l +:+ t +:+ r /\ white_string l /\ white_string r) /\
  (forall c t', t = String c t' -> ~ white c) /\
  (forall t' c, t = t' +:+ String c EmptyString -> ~ white c).

(** The label and the value of a row, and what the row gives: a year when
    its label contains "Release Date" and its value four digits in a row,
    a language when its label contains "Language". *)
Definition label (row : Row) : string := default EmptyString (th row).

Definition value (row : Row) : string := default EmptyString (td row).

Definition gives_year (row : Row) (y : string) : Prop :=
  occurs_in "Release Date" (label row) /\ first_four_digits (value row) y.

Definition gives_no_year (row : Row) : Prop :=
  ~ occurs_in "Release Date" (label row) \/ no_four_digits (value row).

Definition gives_language (row : Row) (t : string) : Prop :=
  occurs_in "Language" (label row) /\ trimmed_of (value row) t.

Definition gives_no_language (row : Row) : Prop :=
  ~ occurs_in "Language" (label row).

(** [gs] requests the URLs [us] in order, each of them one to three times
    in a row. *)
Inductive requested_in_order : list string -> list string -> Prop :=
| requested_nil : requested_in_order [] []
| requested_cons u us k gs :
    (1 <= k <= 3)%nat ->
    requested_in_order us gs ->
    requested_in_order (u :: us) (replicate k u ++ gs).

End Specification.

(* ===================================================================== *)
(** * Scenarios: small webs to run the crawler on *)
(* ===================================================================== *)

Module Scenario.

(** A web whose answer depends on the URL and on how many requests it has
    served. *)
Definition scripted (answer : nat -> string -> Outcome)
    (booklinks : string -> list BookElement) (next : string -> option string)
    (bibrec : string -> option (list Row)) : Web :=
  {| World := nat;
     serve := fun url n => (answer n url, S n);
     select_booklink := booklinks;
     find_next := next;
     find_bibrec := bibrec |}.

Definition ok (s : string) : Outcome :=
  Responded {| status := 200; text := Some s; read := [] |}.

Definition not_found : Outcome :=
  Responded {| status := 404; text := Some "Not Found"; read := [] |}.

(** A body that is not valid UTF-8 (the byte [0xE9]). *)
Definition undecodable : Outcome :=
  Responded {| status := 200; text := None;
               read := [Byte.x63; Byte.x61; Byte.x66; Byte.xe9] |}.

(** A catalogue of two index pages.  The first lists the books 12345
    (English, its text only at [12345-0.txt]) and 99999 (French); the second
    lists 12345 again and 777 (English, no title and no author in its
    entry, its text at the first candidate, not valid UTF-8). *)
Definition library_answer (n : nat) (url : string) : Outcome :=
  if String.eqb url index_url0 then ok "<index 1>"
  else if String.eqb url "https://www.gutenberg.org/ebooks/search/?start_index=26"
  then ok "<index 2>"
  else if String.eqb url "https://www.gutenberg.org/ebooks/12345" then ok "<bibrec 12345>"
  else if String.eqb url "https://www.gutenberg.org/ebooks/99999" then ok "<bibrec 99999>"
  else if String.eqb url "https://www.gutenberg.org/ebooks/777" then ok "<bibrec 777>"
  else if String.eqb url "https://www.gutenberg.org/files/12345/12345-0.txt"
  then ok "Call me Ishmael."
  else if String.eqb url "https://www.gutenberg.org/files/777/777-0.epub.noimages"
  then undecodable
  else not_found.

Definition moby : BookElement :=
  {| a_href := "/ebooks/12345"; span_title := Some "Moby Dick";
     span_subtitle := Some "Herman Melville" |}.

Definition candide : BookElement :=
  {| a_href := "/ebooks/99999"; span_title := Some "Candide";
     span_subtitle := Some "Voltaire" |}.

Definition untitled : BookElement :=
  {| a_href := "/ebooks/777"; span_title := None; span_subtitle := None |}.

Definition library_booklinks (page : string) : list BookElement :=
  if String.eqb page "<index 1>" then [moby; candide]
  else if String.eqb page "<index 2>" then [moby; untitled]
  else [].

Definition library_next (page : string) : option string :=
  if String.eqb page "<index 1>" then Some "/ebooks/search/?start_index=26" else None.

Definition library_bibrec (page : string) : option (list Row) :=
  if String.eqb page "<bibrec 12345>" then
    Some [ {| th := Some "Author"; td := Some "Melville, Herman, 1819-1891" |};
           {| th := Some "Language"; td := Some " English " |};
           {| th := Some "Release Date"; td := Some "Jun 1, 1998 [eBook #12345]" |} ]
  else if String.eqb page "<bibrec 99999>" then
    Some [ {| th := Some "Language"; td := Some "French" |} ]
  else if String.eqb page "<bibrec 777>" then
    Some [ {| th := Some "Language"; td := Some "ENGLISH" |};
           {| th := None; td := Some "a row without a label" |} ]
  else None.

Definition library : Web :=
  scripted library_answer library_booklinks library_next library_bibrec.

(** A server that never answers in time, one that answers 404 to
    everything, and one that answers 200 with an empty body. *)
Definition silent : Web :=
  scripted (fun _ _ => TimeoutError) (fun _ => []) (fun _ => None) (fun _ => None).

Definition missing : Web :=
  scripted (fun _ _ => not_found) (fun _ => []) (fun _ => None) (fun _ => None).

Definition blank : Web :=
  scripted (fun _ _ => ok "") (fun _ => []) (fun _ => None) (fun _ => None).

(** A server that times out, then breaks the connection, then answers
    with a body that is not valid UTF-8. *)
Definition flaky : Web :=
  scripted (fun n _ => match n with
                       | O => TimeoutError
                       | 1%nat => ClientError "Connection reset by peer"
                       | _ => undecodable
                       end)
           (fun _ => []) (fun _ => None) (fun _ => None).

(** An index whose only page lists the French book and links to itself as
    the next page. *)
Definition carousel : Web :=
  scripted (fun _ url => if String.eqb url index_url0 then ok "<index>"
                         else if String.eqb url "https://www.gutenberg.org/ebooks/99999"
                         then ok "<bibrec 99999>" else not_found)
           (fun page => if String.eqb page "<index>" then [candide] else [])
           (fun page => if String.eqb page "<index>"
                        then Some "/ebooks/search/?sort_order=downloads&languages=en"
                        else None)
           library_bibrec.

(** An index of one page, which lists the French book only. *)
Definition french_only : Web :=
  scripted (fun _ url => if String.eqb url index_url0 then ok "<index>"
                         else if String.eqb url "https://www.gutenberg.org/ebooks/99999"
                         then ok "<bibrec 99999>" else not_found)
           (fun page => if String.eqb page "<index>" then [candide] else [])
           (fun _ => None)
           library_bibrec.

End Scenario.

(* ===================================================================== *)
(** * More of the code

    The export of the texts ([gutenberg/tsvtotxt.py]) and what the
    properties of the remaining code are stated with. *)
(* ===================================================================== *)

(** Every character of [s] satisfies [P]. *)
Fixpoint string_forall (P : ascii -> bool) (s : string) : bool :=
  match s with
  | EmptyString => true
  | String c r => P c && string_forall P r
  end.

(** A character that is printable ASCII: from the space to the tilde. *)
Definition printable (c : ascii) : bool := (32 <=? ord c) && (ord c <=? 126).

Definition not_slash (c : ascii) : bool := negb (Ascii.eqb c "/").

Module TsvToTxt.

(** [c.isalnum()] below 256: the digits, the letters of ASCII and of
    Latin-1, and the superscripts and fractions, which [str.isdigit] and
    [str.isnumeric] accept. *)
Definition is_alnum (c : ascii) : bool :=
  let n := ord c in
  ((48 <=? n) && (n <=? 57)) || ((65 <=? n) && (n <=? 90))
  || ((97 <=? n) && (n <=? 122)) || (n =? 170) || (n =? 178) || (n =? 179)
  || (n =? 181) || (n =? 185) || (n =? 186) || ((188 <=? n) && (n <=? 190))
  || ((192 <=? n) && (n <=? 214)) || ((216 <=? n) && (n <=? 246))
  || ((248 <=? n) && (n <=? 255)).

(** [c.isalnum() or c in " _.,"] *)
Definition kept (c : ascii) : bool :=
  is_alnum c || Ascii.eqb c " " || Ascii.eqb c "_" || Ascii.eqb c "."
  || Ascii.eqb c ",".

(** [''.join([c for c in s if c.isalnum() or c in " _.,"])] *)
Fixpoint keep (s : string) : string :=
  match s with
  | EmptyString => EmptyString
  | String c r => if kept c then String c (keep r) else keep r
  end.

(** The [title] of the loop of [save_texts_to_files]: the characters kept,
    cut at 50. *)
Definition file_title (title : string) : string := substring 0 50 (keep title).

(** [os.path.join('texts', f"{row['ID']}_{title}.txt")], with the
    separator of POSIX, for an id that does not start with a slash; [id]
    is the id as the f-string prints it. *)
Definition file_path (id title : string) : string :=
  "texts/" +:+ id +:+ "_" +:+ file_title title +:+ ".txt".

End TsvToTxt.

(** The progress updates among the events. *)
Definition updates (t : list Event) : nat :=
  length (List.filter (fun e => match e with EUpdate => true | _ => false end) t).

(** What the Transport and the Locator do to the world: requests, sleeps
    and log records. *)
Definition quiet_event (e : Event) : Prop :=
  match e with
  | EGet _ | ESleep _ | ELog _ _ => True
  | _ => False
  end.

(** What follows the path of a book in its candidate URLs. *)
Definition suffixes : list string :=
  flat_map (fun i => (fun f => "-" +:+ str i +:+ f) <$> formats) (range 10) ++ formats.

(** The seconds slept after the attempt [i], whose answer is in [outs]. *)
Definition slept (outs : list Outcome) (i : nat) : option Z :=
  match outs !! i with
  | Some o => if raised o then Some (2 ^ Z.of_nat i) else None
  | None => None
  end.

(** The year of the data model: four digits, or ["Unknown"]. *)
Definition year_shaped (y : string) : Prop :=
  y = "Unknown" \/ match_d4 y = Some y.

(** A record as [get_books_list] returns them. *)
Definition sound_record (r : BookRecord) : Prop :=
  Text r <> EmptyString /\ year_shaped (Year r) /\
  string_forall not_slash (ID r) = true.


(* ===================================================================== *)
(** * Running computations *)
(* ===================================================================== *)

Section Running.
Context `{Web}.

Lemma run_bind {A B} (m : M A) (k : A -> M B) w :
  bind m k w =
  (result (k (result (m w)) (final (m w))),
   events (m w) ++ events (k (result (m w)) (final (m w))),
   final (k (result (m w)) (final (m w)))).
Proof.
  unfold bind, result, events, final.
  destruct (m w) as [[a t1] w1]; simpl.
  destruct (k a w1) as [[b t2] w2]; reflexivity.
Qed.

Lemma result_bind {A B} (m : M A) (k : A -> M B) w :
  result (bind m k w) = result (k (result (m w)) (final (m w))).
Proof. rewrite run_bind; reflexivity. Qed.

Lemma events_bind {A B} (m : M A) (k : A -> M B) w :
  events (bind m k w) = events (m w) ++ events (k (result (m w)) (final (m w))).
Proof. rewrite run_bind; reflexivity. Qed.

Lemma final_bind {A B} (m : M A) (k : A -> M B) w :
  final (bind m k w) = final (k (result (m w)) (final (m w))).
Proof. rewrite run_bind; reflexivity. Qed.

Lemma run_eta {A} (r : A * list Event * World) : r = (result r, events r, final r).
Proof. destruct r as [[a t] w]; reflexivity. Qed.

Lemma run_ext {A} (r1 r2 : A * list Event * World) :
  result r1 = result r2 -> events r1 = events r2 -> final r1 = final r2 -> r1 = r2.
Proof.
  destruct r1 as [[a1 t1] w1], r2 as [[a2 t2] w2]; simpl.
  unfold result, events, final; simpl; congruence.
Qed.

End Running.

(** Unfold the run of a sequence down to the runs of its parts. *)
Ltac run :=
  repeat first
    [ rewrite result_bind | rewrite events_bind | rewrite final_bind ];
  cbn [ret emit log sleep result events final fst snd].

(* ===================================================================== *)
(** * Transport: [fetch_text] *)
(* ===================================================================== *)

Section Transport.
Context `{Web}.

Lemma backoff_0 : backoff 0 = sleep 1.
Proof. reflexivity. Qed.

Lemma backoff_1 : backoff 1 = sleep 2.
Proof. reflexivity. Qed.

Lemma backoff_2 : backoff 2 = ret tt.
Proof. reflexivity. Qed.

Lemma fetch_text_attempts url : fetch_text url = fetch_text_loop url [0; 1; 2].
Proof. reflexivity. Qed.

Lemma backoff_events url attempt w :
  Forall (transport_event url) (events (backoff attempt w)).
Proof.
  unfold backoff. destruct (attempt <? retries - 1); cbn; repeat constructor.
Qed.

Lemma backoff_final attempt w : final (backoff attempt w) = w.
Proof. unfold backoff. destruct (attempt <? retries - 1); reflexivity. Qed.

Lemma fetch_text_loop_events url attempts w :
  Forall (transport_event url) (events (fetch_text_loop url attempts w)).
Proof.
  revert w. induction attempts as [|attempt rest IH]; intros w; [constructor|].
  cbn [fetch_text_loop]. run. unfold session_get.
  destruct (serve url w) as [o w1]; cbn [result events final fst snd].
  constructor; [reflexivity|].
  destruct o as [|e|response].
  - run. constructor; [discriminate|].
    apply Forall_app; split; [apply backoff_events|apply IH].
  - run. constructor; [discriminate|].
    apply Forall_app; split; [apply backoff_events|apply IH].
  - destruct (status response =? 200).
    + destruct (text response); constructor.
    + run. constructor; [discriminate|apply IH].
Qed.

Lemma fetch_text_events url w :
  Forall (transport_event url) (events (fetch_text url w)).
Proof. apply fetch_text_loop_events. Qed.

Lemma transport_no_tasks url t : Forall (transport_event url) t -> tasks_of t = [].
Proof.
  induction 1 as [|e t He _ IH]; [reflexivity|].
  destruct e; simpl in *; try tauto; exact IH.
Qed.

Lemma gets_app t1 t2 : gets (t1 ++ t2) = gets t1 ++ gets t2.
Proof. apply omap_app. Qed.

Lemma sleeps_app t1 t2 : sleeps (t1 ++ t2) = sleeps t1 ++ sleeps t2.
Proof. apply omap_app. Qed.

Lemma tasks_of_app t1 t2 : tasks_of (t1 ++ t2) = tasks_of t1 ++ tasks_of t2.
Proof. apply omap_app. Qed.

Lemma backoff_gets attempt w : gets (events (backoff attempt w)) = [].
Proof. unfold backoff. destruct (attempt <? retries - 1); reflexivity. Qed.

Lemma fetch_text_loop_gets url attempts w :
  exists k, (k <= length attempts)%nat /\ (attempts <> [] -> (1 <= k)%nat) /\
            gets (events (fetch_text_loop url attempts w)) = replicate k url.
Proof.
  revert w. induction attempts as [|attempt rest IH]; intros w.
  - exists O. repeat split; [simpl; lia | congruence].
  - cbn [fetch_text_loop]. run. unfold session_get.
    destruct (serve url w) as [o w1]; cbn [result events final fst snd].
    change (gets ([EGet url] ++ ?t)) with (url :: gets t).
    destruct o as [|e|response].
    + run. destruct (IH (final (backoff attempt w1))) as (k & Hk & _ & Hg).
      exists (S k). repeat split; [simpl; lia | lia |].
      change (gets ([ELog ?l ?m] ++ ?t)) with (gets t).
      rewrite gets_app, backoff_gets, Hg. reflexivity.
    + run. destruct (IH (final (backoff attempt w1))) as (k & Hk & _ & Hg).
      exists (S k). repeat split; [simpl; lia | lia |].
      change (gets ([ELog ?l ?m] ++ ?t)) with (gets t).
      rewrite gets_app, backoff_gets, Hg. reflexivity.
    + destruct (status response =? 200).
      * exists 1%nat. repeat split; [simpl; lia | lia |].
        destruct (text response); reflexivity.
      * run. destruct (IH w1) as (k & Hk & _ & Hg).
        exists (S k). repeat split; [simpl; lia | lia |].
        change (gets ([ELog ?l ?m] ++ ?t)) with (gets t).
        rewrite Hg. reflexivity.
Qed.

Lemma fetch_text_loop_step url attempt rest w :
  fetch_text_loop url (attempt :: rest) w =
  let '(o, w1) := serve url w in
  match o with
  | TimeoutError =>
      let r := fetch_text_loop url rest w1 in
      (result r,
       EGet url :: ELog WARNING ("Timeout occurred when fetching " +:+ url)
         :: events (backoff attempt w1) ++ events r,
       final r)
  | ClientError e =>
      let r := fetch_text_loop url rest w1 in
      (result r,
       EGet url :: ELog ERROR ("Error fetching " +:+ url +:+ ": " +:+ e)
         :: events (backoff attempt w1) ++ events r,
       final r)
  | Responded response =>
      if status response =? 200 then
        (Some (default (string_of_list_byte (read response)) (text response)),
         [EGet url], w1)
      else
        let r := fetch_text_loop url rest w1 in
        (result r,
         EGet url :: ELog ERROR ("Failed to fetch " +:+ url +:+ ": Status code "
                                 +:+ str (status response)) :: events r,
         final r)
  end.
Proof.
  cbn [fetch_text_loop]. rewrite run_bind. unfold session_get.
  destruct (serve url w) as [o w1]; cbn [result events final fst snd].
  destruct o as [|e|response].
  - rewrite !run_bind. rewrite backoff_final. reflexivity.
  - rewrite !run_bind. rewrite backoff_final. reflexivity.
  - destruct (status response =? 200).
    + destruct (text response); reflexivity.
    + rewrite !run_bind. reflexivity.
Qed.

Ltac attempt :=
  rewrite fetch_text_loop_step;
  let o := fresh "o" in let w := fresh "w" in
  destruct (serve _ _) as [o w];
  let r := fresh "response" in
  destruct o as [| ? | r];
  [ | | destruct (status r =? 200) eqn:? ];
  cbn [result events final fst snd].

(** C4 (as amended).  [fetch_text] requests its URL at least once and at
    most three times: every attempt but the last made has failed, and the
    last, when it is not the third, is answered with the status 200.  An
    attempt other than the third that ends in a timeout or in another
    exception is followed by a sleep of [2 ^ attempt] seconds, attempts
    counted from 0: the seconds slept are a subsequence of 1, 2, and
    nothing is slept after the third attempt. *)
Theorem fetch_text_backoff url w :
  let tr := events (fetch_text url w) in
  let outs := served url w 3 in
  let k := length (gets tr) in
  (1 <= k <= 3)%nat /\
  gets tr = replicate k url /\
  (forall i o, (S i < k)%nat -> outs !! i = Some o -> succeeded o = false) /\
  (forall o, (k < 3)%nat -> outs !! (k - 1)%nat = Some o -> succeeded o = true) /\
  sleeps tr `sublist_of` [1; 2] /\
  (forall i o, (i < 2)%nat -> (i < k)%nat -> outs !! i = Some o ->
     raised o = true -> 2 ^ Z.of_nat i ∈ sleeps tr).
Proof.
  rewrite fetch_text_attempts. cbn [served].
  attempt; try attempt; try attempt.
  all: try rewrite backoff_0; try rewrite backoff_1; try rewrite backoff_2.
  all: cbn [fetch_text_loop ret sleep emit result events final fst snd app
            gets sleeps omap list_omap length replicate].
  all: split; [lia|]; split; [reflexivity|].
  all: split;
    [ intros i o; destruct i as [|[|[|i]]]; cbn [lookup list_lookup]; try lia;
      intros _ [= <-]; cbn [succeeded]; solve [reflexivity | assumption] |].
  all: split;
    [ intros o; cbn [Nat.sub lookup list_lookup]; try lia;
      intros _ [= <-]; cbn [succeeded]; assumption |].
  all: split;
    [ repeat first [apply sublist_nil | apply sublist_skip | apply sublist_cons] |].
  all: intros i o; destruct i as [|[|[|i]]]; cbn [lookup list_lookup]; try lia.
  all: intros _ _ [= <-]; cbn [raised]; try discriminate; intros _;
       apply list_elem_of_In; simpl; tauto.
Qed.

(** ISO-8859-1 decodes every sequence of bytes, each byte to the
    character of its value. *)
Lemma iso_8859_1_faithful (raw_text : list Byte.byte) :
  list_byte_of_string (string_of_list_byte raw_text) = raw_text.
Proof. apply list_byte_of_string_of_list_byte. Qed.

(** C7.  When an attempt of [fetch_text] is answered with the status 200
    (the attempts before it having failed), [fetch_text] returns a text:
    what [response.text()] gives, and when that raises
    [UnicodeDecodeError], the bytes of the body decoded as ISO-8859-1.  It
    never returns [None] then. *)
Theorem fetch_text_decodes url w pre response post :
  served url w 3 = pre ++ Responded response :: post ->
  Forall (fun o => succeeded o = false) pre ->
  status response = 200 ->
  result (fetch_text url w)
  = Some (match text response with
          | Some s => s
          | None => string_of_list_byte (read response)
          end).
Proof.
  rewrite fetch_text_attempts. cbn [served].
  intros Hs Hpre H200. revert Hs.
  attempt; try attempt; try attempt.
  all: cbn [fetch_text_loop ret result fst].
  all: destruct pre as [|o0 [|o1 [|o2 [|o3 pre]]]]; cbn [app]; intros Hs;
       simplify_eq.
  all: repeat match goal with
       | Hf : Forall _ (_ :: _) |- _ => inversion Hf; clear Hf; subst
       end.
  all: cbn [succeeded] in *; try congruence.
  all: try (rewrite H200 in *; discriminate).
  all: try (destruct (text response); reflexivity).
Qed.

End Transport.

(* ===================================================================== *)
(** * Locator: [get_book_data] *)
(* ===================================================================== *)

Section Locator.
Context `{Web}.
Variable fetch : string -> M (option string).

Lemma for_return_app {A B} (xs ys : list A) (body : A -> M (option B)) w :
  for_return (xs ++ ys) body w =
  (r <- for_return xs body ;;
   match r with
   | Some b => ret (Some b)
   | None => for_return ys body
   end) w.
Proof.
  revert w. induction xs as [|x xs IH]; intros w.
  - cbn [app for_return]. unfold bind, ret.
    destruct (for_return ys body w) as [[b t] w']; reflexivity.
  - cbn [app for_return]. unfold bind at 1 2 3.
    destruct (body x w) as [[r t1] w1]. destruct r as [b|].
    + unfold ret. rewrite !app_nil_r. reflexivity.
    + rewrite IH. unfold bind.
      destruct (for_return xs body w1) as [[r' t2] w2]. destruct r' as [b|].
      * unfold ret. rewrite !app_nil_r. reflexivity.
      * destruct (for_return ys body w2) as [[r'' t3] w3].
        rewrite app_assoc. reflexivity.
Qed.

Lemma for_return_flat_map {A B C} (f : A -> list B) (xs : list A)
    (body : B -> M (option C)) w :
  for_return xs (fun x => for_return (f x) body) w = for_return (flat_map f xs) body w.
Proof.
  revert w. induction xs as [|x xs IH]; intros w; [reflexivity|].
  cbn [flat_map for_return]. rewrite for_return_app. unfold bind.
  destruct (for_return (f x) body w) as [[r t1] w1]. destruct r as [c|].
  - reflexivity.
  - rewrite IH. reflexivity.
Qed.

Lemma for_return_ext {A B} (xs : list A) (body body' : A -> M (option B)) w :
  (forall x w, body x w = body' x w) ->
  for_return xs body w = for_return xs body' w.
Proof.
  intros Hb. revert w. induction xs as [|x xs IH]; intros w; [reflexivity|].
  cbn [for_return]. unfold bind. rewrite Hb.
  destruct (body' x w) as [[r t1] w1]. destruct r; [reflexivity|].
  rewrite IH. reflexivity.
Qed.

Lemma try_extension_probe path ext w :
  try_extension fetch path ext w = for_return (variants path ext) (probe fetch) w.
Proof.
  unfold try_extension, variants.
  destruct (bool_decide (ext ∈ ["epub"; "html"])); cbn [app for_return].
  - unfold probe, bind, log, emit, ret. cbn [fst snd].
    destruct (fetch _ w) as [[text1 t1] w1].
    destruct (truthy text1) eqn:Ht1.
    + destruct text1 as [s|]; [|discriminate].
      rewrite !app_nil_r. reflexivity.
    + destruct (fetch _ w1) as [[text2 t2] w2].
      destruct (truthy text2) eqn:Ht2.
      * destruct text2 as [s|]; [|discriminate].
        rewrite !app_nil_r. reflexivity.
      * rewrite !app_nil_r. reflexivity.
  - unfold probe, bind, log, emit, ret. cbn [fst snd].
    destruct (fetch _ w) as [[text2 t2] w2].
    destruct (truthy text2) eqn:Ht2.
    + destruct text2 as [s|]; [|discriminate]. rewrite ?app_nil_r. reflexivity.
    + rewrite ?app_nil_r. reflexivity.
Qed.

Lemma extensions_probe path w :
  for_return extensions (fun ext => try_extension fetch path ext) w
  = for_return (flat_map (variants path) extensions) (probe fetch) w.
Proof.
  rewrite <- for_return_flat_map. apply for_return_ext.
  intros ext w'. apply try_extension_probe.
Qed.

Lemma get_book_data_with_locate book_id w :
  get_book_data_with fetch book_id w = locate fetch book_id w.
Proof.
  unfold get_book_data_with, locate, tagged_candidates.
  unfold bind at 1 4. rewrite for_return_app. unfold bind at 3.
  rewrite (for_return_ext (range 10) _
             (fun i => for_return (flat_map (variants (versioned book_id i)) extensions)
                         (probe fetch)))
    by (intros i w'; apply extensions_probe).
  rewrite for_return_flat_map.
  destruct (for_return _ (probe fetch) w) as [[r t1] w1]. destruct r as [text1|].
  - unfold ret. rewrite !app_nil_r. reflexivity.
  - unfold bind at 1. rewrite extensions_probe.
    change (directory book_id +:+ "/" +:+ book_id) with (unversioned book_id).
    destruct (for_return _ (probe fetch) w1) as [[r t2] w2]. destruct r as [text2|].
    + unfold ret. rewrite !app_nil_r. reflexivity.
    + unfold bind, log, emit, ret. rewrite !app_nil_r, ?app_assoc. reflexivity.
Qed.

Lemma candidates_tagged book_id : fst <$> tagged_candidates book_id = candidates book_id.
Proof. reflexivity. Qed.

Lemma candidates_length book_id : length (candidates book_id) = 77%nat.
Proof. reflexivity. Qed.

Lemma net_app t1 t2 : net (t1 ++ t2) = net t1 ++ net t2.
Proof. apply List.filter_app. Qed.

Lemma gets_net t : gets (net t) = gets t.
Proof.
  induction t as [|e t IH]; [reflexivity|].
  destruct e; cbn [net List.filter]; fold (net t); cbn [gets omap list_omap];
    fold (gets t); fold (gets (net t)); rewrite ?IH; reflexivity.
Qed.

Lemma probe_truthy c w :
  result (probe fetch c w) = None \/ truthy (result (probe fetch c w)) = true.
Proof.
  unfold probe, bind, log, emit, ret.
  destruct (fetch (fst c) w) as [[text t] w1].
  destruct (truthy text) eqn:Ht; [right; exact Ht|].
  left. destruct (snd c); reflexivity.
Qed.

Lemma for_return_probe_truthy l w :
  result (for_return l (probe fetch) w) = None
  \/ truthy (result (for_return l (probe fetch) w)) = true.
Proof.
  revert w. induction l as [|c l IH]; intros w; [left; reflexivity|].
  cbn [for_return]. rewrite result_bind.
  destruct (probe_truthy c w) as [Hn|Ht].
  - rewrite Hn. apply IH.
  - destruct (result (probe fetch c w)) as [s|]; [|discriminate].
    right. exact Ht.
Qed.

Lemma locate_truthy book_id w :
  result (locate fetch book_id w) = None
  \/ truthy (result (locate fetch book_id w)) = true.
Proof.
  unfold locate. rewrite result_bind.
  destruct (for_return_probe_truthy (tagged_candidates book_id) w) as [Hn|Ht].
  - rewrite Hn. left. reflexivity.
  - destruct (result (for_return _ _ w)) as [s|]; [|discriminate].
    right. exact Ht.
Qed.

Lemma probe_run c w :
  probe fetch c w =
  if truthy (result (fetch (fst c) w)) then
    (result (fetch (fst c) w),
     events (fetch (fst c) w) ++ [ELog INFO ("Found valid text at " +:+ fst c)],
     final (fetch (fst c) w))
  else
    (None,
     events (fetch (fst c) w) ++
       (if snd c then [ELog INFO ("No valid text at " +:+ fst c)] else []),
     final (fetch (fst c) w)).
Proof.
  unfold probe, bind, log, emit, ret.
  destruct (fetch (fst c) w) as [[text t] w1]. cbn [result events final fst snd].
  destruct (truthy text); [reflexivity|]. destruct (snd c); reflexivity.
Qed.

(** The probes of the Locator and the probes of [first_success] give the
    same result, leave the same world and make the same requests. *)
Lemma probes_first_success l w :
  result (for_return l (probe fetch) w) = result (first_success fetch (fst <$> l) w)
  /\ final (for_return l (probe fetch) w) = final (first_success fetch (fst <$> l) w)
  /\ net (events (for_return l (probe fetch) w))
     = net (events (first_success fetch (fst <$> l) w)).
Proof.
  revert w. induction l as [|c l IH]; intros w; [repeat split|].
  cbn [for_return first_success fmap list_fmap]. run. rewrite probe_run.
  destruct (truthy (result (fetch (fst c) w))) eqn:Ht.
  - destruct (result (fetch (fst c) w)) as [s|]; [|discriminate].
    run. rewrite !net_app. cbn [net List.filter app]. rewrite ?app_nil_r.
    repeat split.
  - destruct (IH (final (fetch (fst c) w))) as (Hr & Hf & Hn).
    run. rewrite !net_app, Hn.
    assert (Hl : net (if snd c then [ELog INFO ("No valid text at " +:+ fst c)] else []) = [])
      by (destruct (snd c); reflexivity).
    rewrite Hl, app_nil_r. repeat split; assumption.
Qed.

Lemma locate_first_success book_id w :
  result (locate fetch book_id w) = result (first_success fetch (candidates book_id) w)
  /\ final (locate fetch book_id w) = final (first_success fetch (candidates book_id) w)
  /\ net (events (locate fetch book_id w))
     = net (events (first_success fetch (candidates book_id) w)).
Proof.
  rewrite <- candidates_tagged.
  destruct (probes_first_success (tagged_candidates book_id) w) as (Hr & Hf & Hn).
  unfold locate. rewrite result_bind, final_bind, events_bind, net_app.
  rewrite <- Hr, <- Hf, <- Hn.
  destruct (result (for_return (tagged_candidates book_id) (probe fetch) w));
    cbn; rewrite ?app_nil_r; repeat split.
Qed.

Lemma probe_absent_if_empty c w :
  probe fetch c w = probe (absent_if_empty fetch) c w.
Proof.
  unfold probe, absent_if_empty, bind, log, emit, ret.
  destruct (fetch (fst c) w) as [[text t] w1].
  destruct (truthy text) eqn:Ht; rewrite ?Ht; cbn [truthy];
    rewrite ?app_nil_r; reflexivity.
Qed.

Lemma locate_absent_if_empty book_id w :
  locate fetch book_id w = locate (absent_if_empty fetch) book_id w.
Proof.
  unfold locate, bind.
  rewrite (for_return_ext _ (probe fetch) (probe (absent_if_empty fetch)))
    by apply probe_absent_if_empty.
  reflexivity.
Qed.

End Locator.

Section Probing.
Context `{Web}.

Lemma fetch_text_gets url w :
  exists k, (1 <= k <= 3)%nat /\ gets (events (fetch_text url w)) = replicate k url.
Proof.
  destruct (fetch_text_loop_gets url (range retries) w) as (k & Hk & H1 & Hg).
  exists k. split; [|exact Hg]. split; [apply H1; discriminate | exact Hk].
Qed.

Lemma first_success_requests us w :
  exists n, (n <= length us)%nat /\
    requested_in_order (take n us) (gets (events (first_success fetch_text us w))) /\
    (result (first_success fetch_text us w) = None -> n = length us).
Proof.
  revert w. induction us as [|u us IH]; intros w.
  - exists O. repeat split; constructor.
  - cbn [first_success]. run.
    destruct (fetch_text_gets u w) as (k & Hk & Hg).
    destruct (truthy (result (fetch_text u w))) eqn:Ht.
    + exists 1%nat. run. rewrite gets_app, Hg. cbn [take length].
      repeat split; [lia | constructor; [exact Hk | constructor] |].
      intros Hn. rewrite Hn in Ht. discriminate.
    + destruct (IH (final (fetch_text u w))) as (n & Hn & Hreq & Hnone).
      exists (S n). rewrite gets_app, Hg. cbn [take length].
      repeat split; [lia | constructor; assumption |].
      intros Hr. f_equal. apply Hnone. exact Hr.
Qed.


(** C10 (as amended).  The Locator treats a fetch that yields the empty
    string exactly as a fetch that yields [None]: run on a fetch whose
    empty texts are turned into [None], [get_book_data] gives the same
    result, the same events and the same world.  It is the Locator of the
    specification: on such a candidate it goes on with the next one, and
    it logs "No valid text" for a plain URL and nothing for a no-images
    variant.  The content it returns, when it returns one, is not empty. *)
Theorem get_book_data_empty_text (fetch : string -> M (option string)) book_id w :
  get_book_data_with fetch book_id w
    = get_book_data_with (absent_if_empty fetch) book_id w /\
  get_book_data_with fetch book_id w = locate fetch book_id w /\
  get_book_data book_id w = locate fetch_text book_id w /\
  (result (get_book_data book_id w) = None \/
   truthy (result (get_book_data book_id w)) = true).
Proof.
  unfold get_book_data. rewrite !get_book_data_with_locate.
  split; [apply locate_absent_if_empty|].
  split; [reflexivity|]. split; [reflexivity|]. apply locate_truthy.
Qed.

End Probing.

(* ===================================================================== *)
(** * Metadata Resolver: [get_book_metadata] *)
(* ===================================================================== *)

Section TextFacts.

Lemma startswith_app p s : startswith p s = true <-> exists q, s = p +:+ q.
Proof.
  revert s. induction p as [|a p IH]; intros s; cbn [startswith String.append].
  - split; [intros _; exists s; reflexivity | reflexivity].
  - destruct s as [|b s]; [split; [discriminate | intros [q [=]]]|].
    rewrite andb_true_iff, IH. split.
    + intros [Hab [q ->]]. apply Ascii.eqb_eq in Hab as ->. exists q. reflexivity.
    + intros [q [= -> ->]]. split; [apply Ascii.eqb_refl | exists q; reflexivity].
Qed.

Lemma contains_app needle hay :
  contains needle hay = true <-> exists p q, hay = p +:+ needle +:+ q.
Proof.
  induction hay as [|c hay IH]; cbn [contains]; rewrite orb_true_iff, startswith_app.
  - split.
    + intros [[q Hq]|[=]]. exists EmptyString, q. exact Hq.
    + intros (p & q & Hpq). left. destruct p; [exists q; exact Hpq | discriminate].
  - rewrite IH. split.
    + intros [[q Hq]|(p & q & Hpq)].
      * exists EmptyString, q. exact Hq.
      * exists (String c p), q. cbn. rewrite Hpq. reflexivity.
    + intros (p & q & Hpq). destruct p as [|c' p].
      * left. exists q. exact Hpq.
      * right. injection Hpq as -> ->. exists p, q. reflexivity.
Qed.

Lemma match_d4_app s y :
  match_d4 s = Some y -> (exists q, s = y +:+ q) /\ match_d4 y = Some y.
Proof.
  unfold match_d4.
  destruct s as [|a [|b [|c [|d q]]]]; try discriminate.
  destruct (is_digit a && is_digit b && is_digit c && is_digit d) eqn:Hd;
    [|discriminate].
  intros [= <-]. split; [exists q; reflexivity|]. rewrite Hd. reflexivity.
Qed.

Lemma search_d4_first s y : search_d4 s = Some y -> first_d4 s y.
Proof.
  induction s as [|c s IH].
  - discriminate.
  - cbn [search_d4]. destruct (match_d4 (String c s)) as [y'|] eqn:Hm.
    + intros [= ->]. destruct (match_d4_app _ _ Hm) as [[q Hq] Hy].
      exists EmptyString, q. repeat split; [exact Hq | exact Hy |].
      intros p' r _ _. cbn. lia.
    + intros Hs. destruct (IH Hs) as (p & q & Hpq & Hy & Hfirst).
      exists (String c p), q. repeat split; [cbn; rewrite Hpq; reflexivity | exact Hy |].
      intros p' r Hp' Hr. destruct p' as [|c' p'].
      * change (String c s = r) in Hp'. subst r. congruence.
      * injection Hp' as _ Hp'. cbn [String.length].
        specialize (Hfirst p' r Hp' Hr). lia.
Qed.

Lemma search_d4_none s :
  search_d4 s = None -> forall p r, s = p +:+ r -> match_d4 r = None.
Proof.
  induction s as [|c s IH]; cbn [search_d4].
  - intros _ p r Hp. destruct p; [|discriminate]. change (EmptyString = r) in Hp. subst r. reflexivity.
  - destruct (match_d4 (String c s)) eqn:Hm; [discriminate|].
    intros Hs p r Hp. destruct p as [|c' p].
    + change (String c s = r) in Hp. subst r. exact Hm.
    + injection Hp as _ Hp. exact (IH Hs p r Hp).
Qed.

Lemma lstrip_app s :
  exists l, s = l +:+ lstrip s /\ all_space l = true /\
    match lstrip s with
    | EmptyString => True
    | String c _ => is_space c = false
    end.
Proof.
  induction s as [|c s (l & Hl & Hsp & Hhead)]; cbn [lstrip].
  - exists EmptyString. repeat split.
  - destruct (is_space c) eqn:Hc.
    + exists (String c l).
      split; [change (String c s = String c (l +:+ lstrip s)); f_equal; exact Hl|].
      split; [cbn [all_space]; rewrite Hc, Hsp; reflexivity | exact Hhead].
    + exists EmptyString. repeat split. exact Hc.
Qed.

Lemma rstrip_app s :
  exists r, s = rstrip s +:+ r /\ all_space r = true /\
    match rstrip s with
    | EmptyString => True
    | String _ _ => exists d, last_char (rstrip s) = Some d /\ is_space d = false
    end.
Proof.
  induction s as [|c s (r & Hr & Hsp & Hlast)]; cbn [rstrip].
  - exists EmptyString. repeat split.
  - destruct (rstrip s) as [|a t] eqn:Hs.
    + change (s = r) in Hr. subst r.
      destruct (is_space c) eqn:Hc.
      * exists (String c s).
        split; [reflexivity|]. split; [cbn [all_space]; rewrite Hc, Hsp; reflexivity | exact I].
      * exists s. split; [reflexivity|]. split; [exact Hsp|].
        exists c. split; [reflexivity | exact Hc].
    + exists r.
      split; [change (String c s = String c (String a t +:+ r)); f_equal; exact Hr|].
      split; [exact Hsp|].
      destruct Hlast as (d & Hd & Hnd). exists d.
      split; [|exact Hnd]. change (last_char (String c (String a t)))
        with (match last_char (String a t) with None => Some c | Some e => Some e end).
      rewrite Hd. reflexivity.
Qed.

Lemma rstrip_head c s : is_space c = false -> exists t, rstrip (String c s) = String c t.
Proof.
  intros Hc. cbn [rstrip]. destruct (rstrip s) as [|a t].
  - rewrite Hc. exists EmptyString. reflexivity.
  - exists (String a t). reflexivity.
Qed.

(** [strip] takes white space off both ends of a string, and nothing else:
    what is left neither starts nor ends with white space. *)
Lemma strip_trimmed s :
  exists l r, s = l +:+ strip s +:+ r /\
              all_space l = true /\ all_space r = true /\ trimmed (strip s).
Proof.
  unfold strip.
  destruct (lstrip_app s) as (l & Hl & Hsl & Hhead).
  destruct (rstrip_app (lstrip s)) as (r & Hr & Hsr & Hlast).
  exists l, r. split; [rewrite <- Hr; exact Hl|]. split; [exact Hsl|].
  split; [exact Hsr|].
  destruct (lstrip s) as [|c t] eqn:Hs; [exact I|].
  destruct (rstrip_head c t Hhead) as (t' & Ht'). rewrite Ht' in *.
  split; [exact Hhead | exact Hlast].
Qed.

Ltac letter c :=
  destruct c as [[] [] [] [] [] [] [] []]; vm_compute; intros Hc;
  first [discriminate Hc | left; reflexivity | right; reflexivity].

Lemma lower_char_e c : lower_char c = "e"%char -> c = "e"%char \/ c = "E"%char.
Proof. letter c. Qed.

Lemma lower_char_n c : lower_char c = "n"%char -> c = "n"%char \/ c = "N"%char.
Proof. letter c. Qed.

Lemma lower_char_g c : lower_char c = "g"%char -> c = "g"%char \/ c = "G"%char.
Proof. letter c. Qed.

Lemma lower_char_l c : lower_char c = "l"%char -> c = "l"%char \/ c = "L"%char.
Proof. letter c. Qed.

Lemma lower_char_i c : lower_char c = "i"%char -> c = "i"%char \/ c = "I"%char.
Proof. letter c. Qed.

Lemma lower_char_s c : lower_char c = "s"%char -> c = "s"%char \/ c = "S"%char.
Proof. letter c. Qed.

Lemma lower_char_h c : lower_char c = "h"%char -> c = "h"%char \/ c = "H"%char.
Proof. letter c. Qed.

Lemma lower_english s : lower s = "english" <-> english_ignoring_case s.
Proof.
  unfold english_ignoring_case. split.
  - destruct s as [|c1 [|c2 [|c3 [|c4 [|c5 [|c6 [|c7 [|c8 s]]]]]]]];
      cbn [lower]; try discriminate.
    intros [= H1 H2 H3 H4 H5 H6 H7].
    exists c1, c2, c3, c4, c5, c6, c7. split; [reflexivity|].
    repeat split;
      [ apply lower_char_e | apply lower_char_n | apply lower_char_g
      | apply lower_char_l | apply lower_char_i | apply lower_char_s
      | apply lower_char_h ]; assumption.
  - intros (c1 & c2 & c3 & c4 & c5 & c6 & c7 & -> & H1 & H2 & H3 & H4 & H5 & H6 & H7).
    destruct H1 as [-> | ->], H2 as [-> | ->], H3 as [-> | ->], H4 as [-> | ->],
      H5 as [-> | ->], H6 as [-> | ->], H7 as [-> | ->]; reflexivity.
Qed.

Ltac each_char c :=
  destruct c as [[] [] [] [] [] [] [] []]; vm_compute; split; intros Hc;
  try reflexivity; try discriminate Hc;
  try (repeat (destruct Hc as [Hc|Hc]; try discriminate Hc); contradiction);
  repeat first [left; reflexivity | right].

Lemma is_digit_decimal c : is_digit c = true <-> decimal c.
Proof. each_char c. Qed.

Lemma is_space_white c : is_space c = true <-> white c.
Proof. each_char c. Qed.

Lemma four_digits_match y q : four_digits y -> match_d4 (y +:+ q) = Some y.
Proof.
  intros (a & b & c & d & -> & Ha & Hb & Hc & Hd).
  apply is_digit_decimal in Ha, Hb, Hc, Hd.
  change (match_d4 (String a (String b (String c (String d q))))
          = Some (String a (String b (String c (String d EmptyString))))).
  unfold match_d4. rewrite Ha, Hb, Hc, Hd. reflexivity.
Qed.

Lemma match_four_digits s y : match_d4 s = Some y -> four_digits y.
Proof.
  unfold match_d4. destruct s as [|a [|b [|c [|d q]]]]; try discriminate.
  destruct (is_digit a) eqn:Ha; [|discriminate].
  destruct (is_digit b) eqn:Hb; [|discriminate].
  destruct (is_digit c) eqn:Hc; [|discriminate].
  destruct (is_digit d) eqn:Hd; [|discriminate].
  intros [= <-]. exists a, b, c, d.
  split; [reflexivity|]. repeat split; apply is_digit_decimal; assumption.
Qed.

Lemma search_d4_first_four_digits s y :
  search_d4 s = Some y -> first_four_digits s y.
Proof.
  intros Hs. destruct (search_d4_first _ _ Hs) as (p & q & Hpq & Hy & Hfirst).
  split; [eapply match_four_digits; exact Hy|].
  exists p, q. split; [exact Hpq|].
  intros p' y' q' Hs' Hy'. apply (Hfirst p' (y' +:+ q') Hs').
  rewrite (four_digits_match _ _ Hy'). discriminate.
Qed.

Lemma search_d4_no_four_digits s : search_d4 s = None -> no_four_digits s.
Proof.
  intros Hs p y q Hpq Hy.
  pose proof (search_d4_none _ Hs p (y +:+ q) Hpq) as Hn.
  rewrite (four_digits_match _ _ Hy) in Hn. discriminate.
Qed.

Lemma all_space_white s : all_space s = true -> white_string s.
Proof.
  induction s as [|c s IH]; [intros _ d []|].
  cbn [all_space]. rewrite andb_true_iff. intros [Hc Hs] d [<-|Hd].
  - apply is_space_white, Hc.
  - apply IH; assumption.
Qed.

Lemma last_char_snoc t c : last_char (t +:+ String c EmptyString) = Some c.
Proof.
  induction t as [|x t IH]; [reflexivity|].
  change (match last_char (t +:+ String c EmptyString) with
          | None => Some x | Some d => Some d end = Some c).
  rewrite IH. reflexivity.
Qed.

Lemma strip_trimmed_of s : trimmed_of s (strip s).
Proof.
  destruct (strip_trimmed s) as (l & r & Hs & Hl & Hr & Ht).
  split; [|split].
  - exists l, r. split; [exact Hs|]. split; apply all_space_white; assumption.
  - intros c t' Heq Hw. rewrite Heq in Ht. destruct Ht as [Hc _].
    apply is_space_white in Hw. congruence.
  - intros t' c Heq Hw. rewrite Heq in Ht.
    destruct (t' +:+ String c EmptyString) as [|x u] eqn:Hu.
    + destruct t'; discriminate Hu.
    + destruct Ht as (_ & d & Hd & Hnd). rewrite <- Hu, last_char_snoc in Hd.
      injection Hd as <-. apply is_space_white in Hw. congruence.
Qed.

End TextFacts.

Section Metadata.
Context `{Web}.

Lemma read_row_year m row : year (read_row m row) = default (year m) (year_of row).
Proof.
  unfold read_row, year_of.
  destruct (contains "Release Date" _); [destruct (search_d4 _)|];
    destruct (contains "Language" _); reflexivity.
Qed.

Lemma read_row_language m row :
  language (read_row m row) = default (language m) (language_of row).
Proof.
  unfold read_row, language_of.
  destruct (contains "Release Date" _); [destruct (search_d4 _)|];
    destruct (contains "Language" _); reflexivity.
Qed.

(** Either no element of a list yields a value, or there is a last one
    that does. *)
Lemma last_yield {A B} (f : A -> option B) (l : list A) :
  Forall (fun x => f x = None) l \/
  exists pre x post y, l = pre ++ x :: post /\ f x = Some y /\
                       Forall (fun x => f x = None) post.
Proof.
  induction l as [|a l IH]; [left; constructor|].
  destruct IH as [Hnone|(pre & x & post & y & -> & Hx & Hpost)].
  - destruct (f a) as [y|] eqn:Ha.
    + right. exists [], a, l, y. repeat split; assumption.
    + left. constructor; assumption.
  - right. exists (a :: pre), x, post, y. repeat split; assumption.
Qed.

Lemma fold_read_row_year_none rows m :
  Forall (fun r => year_of r = None) rows ->
  year (fold_left read_row rows m) = year m.
Proof.
  intros Hn. revert m. induction Hn as [|r rows Hr _ IH]; intros m; [reflexivity|].
  cbn [fold_left]. rewrite IH, read_row_year, Hr. reflexivity.
Qed.

Lemma fold_read_row_year_last pre row post y m :
  year_of row = Some y -> Forall (fun r => year_of r = None) post ->
  year (fold_left read_row (pre ++ row :: post) m) = y.
Proof.
  intros Hy Hpost. rewrite fold_left_app. cbn [fold_left].
  rewrite fold_read_row_year_none by assumption.
  rewrite read_row_year, Hy. reflexivity.
Qed.

Lemma fold_read_row_language_none rows m :
  Forall (fun r => language_of r = None) rows ->
  language (fold_left read_row rows m) = language m.
Proof.
  intros Hn. revert m. induction Hn as [|r rows Hr _ IH]; intros m; [reflexivity|].
  cbn [fold_left]. rewrite IH, read_row_language, Hr. reflexivity.
Qed.

Lemma fold_read_row_language_last pre row post y m :
  language_of row = Some y -> Forall (fun r => language_of r = None) post ->
  language (fold_left read_row (pre ++ row :: post) m) = y.
Proof.
  intros Hy Hpost. rewrite fold_left_app. cbn [fold_left].
  rewrite fold_read_row_language_none by assumption.
  rewrite read_row_language, Hy. reflexivity.
Qed.

Lemma year_of_Some row y :
  year_of row = Some y ->
  contains "Release Date" (default EmptyString (th row)) = true /\
  first_d4 (default EmptyString (td row)) y.
Proof.
  unfold year_of. destruct (contains "Release Date" _); [|discriminate].
  intros Hs. split; [reflexivity | apply search_d4_first; exact Hs].
Qed.

Lemma language_of_Some row y :
  language_of row = Some y ->
  contains "Language" (default EmptyString (th row)) = true /\
  y = strip (default EmptyString (td row)).
Proof.
  unfold language_of. destruct (contains "Language" _); [|discriminate].
  intros [= <-]. split; reflexivity.
Qed.

(** The metadata read from the rows of the table. *)
Lemma fold_read_row_spec rows :
  let m := fold_left read_row rows unknown in
  (year m = "Unknown" /\ Forall (fun r => year_of r = None) rows \/
   exists pre row post,
     rows = pre ++ row :: post /\ Forall (fun r => year_of r = None) post /\
     contains "Release Date" (default EmptyString (th row)) = true /\
     first_d4 (default EmptyString (td row)) (year m)) /\
  (language m = "Unknown" /\ Forall (fun r => language_of r = None) rows \/
   exists pre row post,
     rows = pre ++ row :: post /\ Forall (fun r => language_of r = None) post /\
     contains "Language" (default EmptyString (th row)) = true /\
     language m = strip (default EmptyString (td row))).
Proof.
  cbn zeta. split.
  - destruct (last_yield year_of rows) as [Hn|(pre & row & post & y & -> & Hy & Hpost)].
    + left. split; [|exact Hn]. rewrite fold_read_row_year_none by exact Hn. reflexivity.
    + right. exists pre, row, post.
      rewrite (fold_read_row_year_last _ _ _ y) by assumption.
      destruct (year_of_Some _ _ Hy). repeat split; assumption.
  - destruct (last_yield language_of rows) as [Hn|(pre & row & post & y & -> & Hy & Hpost)].
    + left. split; [|exact Hn]. rewrite fold_read_row_language_none by exact Hn. reflexivity.
    + right. exists pre, row, post.
      rewrite (fold_read_row_language_last _ _ _ y) by assumption.
      destruct (language_of_Some _ _ Hy). repeat split; assumption.
Qed.

Lemma get_book_metadata_run book_id w :
  get_book_metadata book_id w =
  let page := fetch_text ("https://www.gutenberg.org/ebooks/" +:+ book_id) w in
  (match result page with
   | Some (String _ _ as t) =>
       match find_bibrec t with
       | Some rows => fold_left read_row rows unknown
       | None => unknown
       end
   | _ => unknown
   end, events page, final page).
Proof.
  unfold get_book_metadata. cbn zeta. rewrite run_bind.
  destruct (result (fetch_text _ w)) as [[|c s]|];
    cbn [truthy default from_option id].
  - cbn [ret result events final fst snd]. rewrite app_nil_r. reflexivity.
  - destruct (find_bibrec (String c s));
      cbn [ret result events final fst snd]; rewrite app_nil_r; reflexivity.
  - cbn [ret result events final fst snd]. rewrite app_nil_r. reflexivity.
Qed.

Lemma year_of_gives row y : year_of row = Some y -> gives_year row y.
Proof.
  unfold year_of, gives_year, label, value.
  destruct (contains "Release Date" _) eqn:Hc; [|discriminate].
  intros Hs. split; [apply contains_app, Hc | apply search_d4_first_four_digits, Hs].
Qed.

Lemma year_of_gives_none row : year_of row = None -> gives_no_year row.
Proof.
  unfold year_of, gives_no_year, label, value.
  destruct (contains "Release Date" _) eqn:Hc.
  - intros Hs. right. apply search_d4_no_four_digits, Hs.
  - intros _. left. intros Ho. apply contains_app in Ho. congruence.
Qed.

Lemma language_of_gives row t : language_of row = Some t -> gives_language row t.
Proof.
  unfold language_of, gives_language, label, value.
  destruct (contains "Language" _) eqn:Hc; [|discriminate].
  intros [= <-]. split; [apply contains_app, Hc | apply strip_trimmed_of].
Qed.

Lemma language_of_gives_none row : language_of row = None -> gives_no_language row.
Proof.
  unfold language_of, gives_no_language, label.
  destruct (contains "Language" _) eqn:Hc; [discriminate|].
  intros _ Ho. apply contains_app in Ho. congruence.
Qed.

(** The metadata read from the rows of the table, in the words of the
    claim. *)
Lemma fold_read_row_gives rows :
  let m := fold_left read_row rows unknown in
  (year m = "Unknown" /\ Forall gives_no_year rows \/
   exists pre row post,
     rows = pre ++ row :: post /\ Forall gives_no_year post /\
     gives_year row (year m)) /\
  (language m = "Unknown" /\ Forall gives_no_language rows \/
   exists pre row post,
     rows = pre ++ row :: post /\ Forall gives_no_language post /\
     gives_language row (language m)).
Proof.
  cbn zeta. split.
  - destruct (last_yield year_of rows) as [Hn|(pre & row & post & y & -> & Hy & Hpost)].
    + left. split.
      * rewrite fold_read_row_year_none by exact Hn. reflexivity.
      * eapply Forall_impl; [exact Hn|]. apply year_of_gives_none.
    + right. exists pre, row, post.
      rewrite (fold_read_row_year_last _ _ _ y) by assumption.
      split; [reflexivity|]. split; [|apply year_of_gives, Hy].
      eapply Forall_impl; [exact Hpost|]. apply year_of_gives_none.
  - destruct (last_yield language_of rows) as [Hn|(pre & row & post & y & -> & Hy & Hpost)].
    + left. split.
      * rewrite fold_read_row_language_none by exact Hn. reflexivity.
      * eapply Forall_impl; [exact Hn|]. apply language_of_gives_none.
    + right. exists pre, row, post.
      rewrite (fold_read_row_language_last _ _ _ y) by assumption.
      split; [reflexivity|]. split; [|apply language_of_gives, Hy].
      eapply Forall_impl; [exact Hpost|]. apply language_of_gives_none.
Qed.

(** C6.  [get_book_metadata] is a total function: it fetches the page of
    the book, once, and always returns a [Metadata].  When the fetch
    fails, or the page is empty or has no table, both fields are
    ["Unknown"].  Otherwise the year is the first four digits in a row of
    the value of a row whose label contains "Release Date" (the last of
    the rows that give a year), and ["Unknown"] when every row has a
    label without "Release Date" or a value without four digits in a row;
    the language is the value, without the white space at its two ends,
    of a row whose label contains "Language" (the last of them), and
    ["Unknown"] when no label contains "Language".  Containing, digits
    and white space are stated on the characters, not with the functions
    of the model. *)
Theorem get_book_metadata_spec book_id w :
  let page := fetch_text ("https://www.gutenberg.org/ebooks/" +:+ book_id) w in
  let m := result (get_book_metadata book_id w) in
  events (get_book_metadata book_id w) = events page /\
  final (get_book_metadata book_id w) = final page /\
  (result page = None \/ result page = Some EmptyString -> m = unknown) /\
  (forall t, result page = Some t -> find_bibrec t = None -> m = unknown) /\
  (forall t rows,
     result page = Some t -> t <> EmptyString -> find_bibrec t = Some rows ->
     (year m = "Unknown" /\ Forall gives_no_year rows \/
      exists pre row post,
        rows = pre ++ row :: post /\ Forall gives_no_year post /\
        gives_year row (year m)) /\
     (language m = "Unknown" /\ Forall gives_no_language rows \/
      exists pre row post,
        rows = pre ++ row :: post /\ Forall gives_no_language post /\
        gives_language row (language m))).
Proof.
  cbn zeta. rewrite get_book_metadata_run. cbn zeta.
  cbn [result events final fst snd].
  split; [reflexivity|]. split; [reflexivity|]. split; [|split].
  - intros [Hp|Hp]; rewrite Hp; reflexivity.
  - intros t Hp Hn. rewrite Hp. destruct t; [reflexivity|]. rewrite Hn. reflexivity.
  - intros t rows Hp Ht Hrows. rewrite Hp. destruct t; [congruence|].
    rewrite Hrows. apply (fold_read_row_gives rows).
Qed.

End Metadata.

(* ===================================================================== *)
(** * Orchestrator: [download_books] *)
(* ===================================================================== *)

Section Orchestrator.
Context `{Web}.

Lemma download_books_run book w :
  download_books book w =
  let md := get_book_metadata (book_id_of book) w in
  if english (result md) then
    let data := get_book_data (book_id_of book) (final md) in
    (if truthy (result data) then
       Some {| ID := book_id_of book;
               Title := default "No Title" (span_title book);
               Author := default "Unknown Author" (span_subtitle book);
               Year := year (result md);
               Text := default EmptyString (result data) |}
     else None,
     events md ++ events data ++ [EUpdate], final data)
  else (None, events md ++ [EUpdate], final md).
Proof.
  unfold download_books, english. cbn zeta. rewrite run_bind.
  destruct (String.eqb _ "english"); cbn [negb].
  - rewrite !run_bind. cbn [emit result events final fst snd].
    destruct (truthy (result (get_book_data _ _)));
      cbn [ret result events final fst snd]; rewrite app_nil_r; reflexivity.
  - rewrite !run_bind. cbn [emit ret result events final fst snd].
    rewrite app_nil_r. reflexivity.
Qed.

Lemma get_book_data_truthy book_id w :
  result (get_book_data book_id w) = None \/
  truthy (result (get_book_data book_id w)) = true.
Proof.
  unfold get_book_data. rewrite get_book_data_with_locate. apply locate_truthy.
Qed.

(** C1.  [download_books] returns a record if and only if the language of
    the metadata is the word "english", each of its letters in lower or
    in upper case, and [get_book_data] returns a content.  When the
    language is another, the Locator is not run: the events are those of
    the metadata and the progress update.  When the Locator returns
    [None], no record is returned.  The record returned carries the id,
    the year of the metadata and the content found. *)
Theorem download_books_emits book w :
  let md := get_book_metadata (book_id_of book) w in
  let data := get_book_data (book_id_of book) (final md) in
  ((exists record, result (download_books book w) = Some record) <->
   (english_ignoring_case (language (result md)) /\
    exists content, result data = Some content)) /\
  (~ english_ignoring_case (language (result md)) ->
   download_books book w = (None, events md ++ [EUpdate], final md)) /\
  (result data = None -> result (download_books book w) = None) /\
  (forall record, result (download_books book w) = Some record ->
   ID record = book_id_of book /\ Year record = year (result md) /\
   result data = Some (Text record)).
Proof.
  cbn zeta. rewrite download_books_run. cbn zeta. unfold english.
  set (md := get_book_metadata (book_id_of book) w).
  set (data := get_book_data (book_id_of book) (final md)).
  destruct (String.eqb_spec (lower (language (result md))) "english") as [He|Hne];
    cbn [result events final fst snd].
  - apply lower_english in He.
    destruct (get_book_data_truthy (book_id_of book) (final md)) as [Hn|Ht];
      fold data in Hn || fold data in Ht.
    + rewrite Hn. cbn [truthy].
      split; [split; [intros [record [=]] | intros (_ & content & [=])]|].
      split; [intros Hne; destruct (Hne He)|].
      split; [reflexivity | intros record [=]].
    + rewrite Ht. destruct (result data) as [content|]; [|discriminate].
      split; [split; [intros _; split; [exact He | exists content; reflexivity]
                     | intros _; eexists; reflexivity]|].
      split; [intros Hne; destruct (Hne He)|].
      split; [discriminate|].
      intros record [= <-]. repeat split.
  - assert (Hne' : ~ english_ignoring_case (language (result md)))
      by (intros He; apply Hne, lower_english, He).
    split; [split; [intros [record [=]] | intros (He & _); destruct (Hne' He)]|].
    split; [reflexivity|].
    split; [reflexivity | intros record [=]].
Qed.

(** C9.  For an entry whose metadata say English and whose content is
    found, [download_books] returns a record, with or without a title and
    an author in the entry: the title of the record is "No Title" when the
    entry has no [span.title], and its author "Unknown Author" when the
    entry has no [span.subtitle]. *)
Theorem download_books_defaults book w content :
  let md := get_book_metadata (book_id_of book) w in
  lower (language (result md)) = "english" ->
  result (get_book_data (book_id_of book) (final md)) = Some content ->
  exists record,
    result (download_books book w) = Some record /\
    (span_title book = None -> Title record = "No Title") /\
    (span_subtitle book = None -> Author record = "Unknown Author") /\
    (forall title, span_title book = Some title -> Title record = title) /\
    (forall author, span_subtitle book = Some author -> Author record = author).
Proof.
  cbn zeta. intros He Hc. rewrite download_books_run. cbn zeta. unfold english.
  rewrite He. change (String.eqb "english" "english") with true. cbn iota.
  destruct (get_book_data_truthy (book_id_of book)
              (final (get_book_metadata (book_id_of book) w))) as [Hn|Ht];
    [congruence|].
  rewrite Ht. eexists. split; [reflexivity|]. cbn [Title Author].
  split; [intros ->; reflexivity|].
  split; [intros ->; reflexivity|].
  split; intros x ->; reflexivity.
Qed.

End Orchestrator.

(* ===================================================================== *)
(** * Index Walker: [get_books_list] *)
(* ===================================================================== *)

Section Walker.
Context `{Web}.

Lemma schedule_run book_elements tasks processed w :
  schedule book_elements tasks processed w =
  ((tasks ++ (download_books <$> fresh processed book_elements),
    list_to_set (book_id_of <$> book_elements) ∪ processed),
   ETask <$> (book_id_of <$> fresh processed book_elements),
   w).
Proof.
  revert tasks processed.
  induction book_elements as [|book rest IH]; intros tasks processed.
  - cbn [schedule fresh fmap list_fmap list_to_set ret].
    rewrite app_nil_r, (left_id_L ∅ (∪)). reflexivity.
  - cbn [schedule fresh]. case_bool_decide as Hin.
    + rewrite run_bind. cbn [emit result events final fst snd]. rewrite IH.
      cbn [result events final fst snd fmap list_fmap app list_to_set].
      rewrite <- app_assoc. cbn [app].
      rewrite (assoc_L (∪) (list_to_set _) {[_]} processed).
      rewrite (comm_L (∪) (list_to_set _) {[_]}). reflexivity.
    + rewrite IH. cbn [fmap list_fmap list_to_set].
      rewrite <- (assoc_L (∪) {[_]} (list_to_set _) processed).
      rewrite (subseteq_union_1_L {[book_id_of book]} (_ ∪ processed)); [reflexivity|].
      apply singleton_subseteq_l, elem_of_union_r, Hin.
Qed.

Lemma fresh_not_processed processed book_elements id :
  id ∈ book_id_of <$> fresh processed book_elements -> id ∉ processed.
Proof.
  revert processed. induction book_elements as [|book rest IH]; intros processed.
  - cbn. intros Hin. inversion Hin.
  - cbn [fresh]. case_bool_decide as Hin.
    + cbn [fmap list_fmap]. rewrite elem_of_cons. intros [->|Hrest]; [exact Hin|].
      apply IH in Hrest. intros Hp. apply Hrest, elem_of_union_r, Hp.
    + apply IH.
Qed.

Lemma fresh_NoDup processed book_elements :
  NoDup (book_id_of <$> fresh processed book_elements).
Proof.
  revert processed. induction book_elements as [|book rest IH]; intros processed.
  - constructor.
  - cbn [fresh]. case_bool_decide as Hin; [|apply IH].
    cbn [fmap list_fmap]. constructor; [|apply IH].
    intros Hrest. apply fresh_not_processed in Hrest.
    apply Hrest, elem_of_union_l, elem_of_singleton. reflexivity.
Qed.

Lemma fresh_subset processed book_elements id :
  id ∈ book_id_of <$> fresh processed book_elements ->
  id ∈ book_id_of <$> book_elements.
Proof.
  revert processed. induction book_elements as [|book rest IH]; intros processed.
  - cbn. intros Hin. exact Hin.
  - cbn [fresh]. case_bool_decide as Hin; cbn [fmap list_fmap];
      rewrite !elem_of_cons.
    + intros [->|Hrest]; [left; reflexivity | right; eapply IH; exact Hrest].
    + intros Hrest. right. eapply IH; exact Hrest.
Qed.

Lemma no_task_app t1 t2 : no_task t1 -> no_task t2 -> no_task (t1 ++ t2).
Proof. unfold no_task. intros H1 H2. rewrite tasks_of_app, H1, H2. reflexivity. Qed.

Lemma fetch_text_no_task url w : no_task (events (fetch_text url w)).
Proof. eapply transport_no_tasks. apply fetch_text_events. Qed.

Lemma for_return_no_task {A B} (xs : list A) (body : A -> M (option B)) w :
  (forall x w, no_task (events (body x w))) ->
  no_task (events (for_return xs body w)).
Proof.
  intros Hb. revert w. induction xs as [|x xs IH]; intros w; [reflexivity|].
  cbn [for_return]. rewrite events_bind. apply no_task_app; [apply Hb|].
  destruct (result (body x w)); [reflexivity | apply IH].
Qed.

Lemma get_book_data_no_task book_id w : no_task (events (get_book_data book_id w)).
Proof.
  unfold get_book_data. rewrite get_book_data_with_locate. unfold locate.
  rewrite events_bind. apply no_task_app.
  - apply for_return_no_task. intros c w'. rewrite probe_run.
    destruct (truthy _); cbn [events fst snd];
      (apply no_task_app; [apply fetch_text_no_task|]);
      [reflexivity | destruct (snd c); reflexivity].
  - destruct (result _); reflexivity.
Qed.

Lemma download_books_no_task book w : no_task (events (download_books book w)).
Proof.
  rewrite download_books_run. cbn zeta. rewrite get_book_metadata_run. cbn zeta.
  cbn [result events final fst snd].
  destruct (english _); cbn [events fst snd].
  - apply no_task_app; [apply fetch_text_no_task|].
    apply no_task_app; [apply get_book_data_no_task | reflexivity].
  - apply no_task_app; [apply fetch_text_no_task | reflexivity].
Qed.

Lemma gather_no_task (books : list BookElement) w :
  no_task (events (gather (download_books <$> books) w)).
Proof.
  revert w. induction books as [|book books IH]; intros w; [reflexivity|].
  cbn [fmap list_fmap gather]. run.
  apply no_task_app; [apply download_books_no_task|].
  apply no_task_app; [apply IH | reflexivity].
Qed.

Lemma process_page_run book_elements books processed w :
  process_page book_elements books processed w =
  let tasks := download_books <$> fresh processed book_elements in
  (books ++ omap id (result (gather tasks w)),
   list_to_set (book_id_of <$> book_elements) ∪ processed,
   ETqdm (length book_elements)
     :: (ETask <$> (book_id_of <$> fresh processed book_elements))
     ++ events (gather tasks w) ++ [EClose],
   final (gather tasks w)).
Proof.
  unfold process_page. rewrite run_bind. cbn [emit result events final fst snd app].
  rewrite run_bind. rewrite schedule_run. cbn [result events final fst snd app].
  rewrite !run_bind. cbn [emit ret result events final fst snd app].
  reflexivity.
Qed.

Lemma process_page_tasks book_elements books processed w :
  tasks_of (events (process_page book_elements books processed w))
  = book_id_of <$> fresh processed book_elements.
Proof.
  rewrite process_page_run. cbn zeta. cbn [events fst snd].
  change (tasks_of (ETqdm ?n :: ?t)) with (tasks_of t).
  rewrite !tasks_of_app, gather_no_task. cbn [tasks_of omap list_omap app].
  rewrite app_nil_r.
  induction (book_id_of <$> fresh processed book_elements) as [|i l IH];
    [reflexivity|].
  cbn [fmap list_fmap]. change (tasks_of (ETask i :: ?t)) with (i :: tasks_of t).
  f_equal. exact IH.
Qed.

Lemma walk_step fuel url books processed w :
  walk (S fuel) url books processed w =
  let page := fetch_text url w in
  if truthy (result page) then
    let soup := default EmptyString (result page) in
    match select_booklink soup with
    | [] => (Some books, events page, final page)
    | _ :: _ =>
        let p := process_page (select_booklink soup) books processed (final page) in
        match find_next soup with
        | Some href =>
            let r := walk fuel ("https://www.gutenberg.org" +:+ href)
                       (fst (result p)) (snd (result p)) (final p) in
            (result r, events page ++ events p ++ events r, final r)
        | None => (Some (fst (result p)), events page ++ events p, final p)
        end
    end
  else
    let r := walk fuel url books processed (final page) in
    (result r, events page ++ events r, final r).
Proof.
  cbn [walk]. cbn zeta. rewrite run_bind.
  destruct (truthy (result (fetch_text url w))); [|reflexivity].
  destruct (select_booklink _) as [|book rest] eqn:Hsel.
  - cbn [ret result events final fst snd]. rewrite app_nil_r. reflexivity.
  - rewrite run_bind.
    destruct (result (process_page _ _ _ _)) as [books' processed'] eqn:Hp.
    cbn [fst snd].
    destruct (find_next _).
    + reflexivity.
    + cbn [ret result events final fst snd]. rewrite app_nil_r. reflexivity.
Qed.

Lemma walk_tasks fuel url books processed w :
  NoDup (tasks_of (events (walk fuel url books processed w))) /\
  (forall id, id ∈ tasks_of (events (walk fuel url books processed w)) ->
              id ∉ processed).
Proof.
  revert url books processed w.
  induction fuel as [|fuel IH]; intros url books processed w.
  - cbn. split; [constructor | intros id Hin; inversion Hin].
  - rewrite walk_step. cbn zeta.
    set (page := fetch_text url w).
    assert (Hpage : tasks_of (events page) = []) by apply fetch_text_no_task.
    destruct (truthy (result page)).
    + destruct (select_booklink _) as [|book rest] eqn:Hsel.
      * cbn [events fst snd]. rewrite Hpage.
        split; [constructor | intros id Hin; inversion Hin].
      * rewrite <- Hsel.
        set (entries := select_booklink _).
        assert (Hp := process_page_tasks entries books processed (final page)).
        assert (Hset : snd (result (process_page entries books processed (final page)))
                       = list_to_set (book_id_of <$> entries) ∪ processed)
          by (rewrite process_page_run; reflexivity).
        destruct (find_next _) as [href|]; cbn [events fst snd].
        -- rewrite !tasks_of_app, Hpage, Hp. cbn [app].
           destruct (IH ("https://www.gutenberg.org" +:+ href)
                        (fst (result (process_page entries books processed (final page))))
                        (snd (result (process_page entries books processed (final page))))
                        (final (process_page entries books processed (final page))))
             as [Hnd Hnew].
           split.
           ++ apply NoDup_app. split; [apply fresh_NoDup|]. split; [|exact Hnd].
              intros id Hid Hid'. apply Hnew in Hid'. rewrite Hset in Hid'.
              apply Hid'.
              apply elem_of_union_l, elem_of_list_to_set.
              eapply fresh_subset. exact Hid.
           ++ intros id [Hid|Hid]%elem_of_app.
              ** eapply fresh_not_processed. exact Hid.
              ** apply Hnew in Hid. rewrite Hset in Hid.
                 intros Hp'. apply Hid, elem_of_union_r, Hp'.
        -- rewrite !tasks_of_app, Hpage, Hp. cbn [app]. split.
           ++ apply fresh_NoDup.
           ++ intros id Hid. eapply fresh_not_processed. exact Hid.
    + cbn [events fst snd]. rewrite tasks_of_app, Hpage. cbn [app]. apply IH.
Qed.

(** C5.  In a run, no book id is scheduled twice: the ids of the tasks
    appended, over all the pages of the walk, are pairwise different, and
    none of them is in the set of processed ids the walk starts from.  The
    loop that schedules the tasks of a page puts every id of the page in
    the set and leaves the world as it is: it runs no task. *)
Theorem books_scheduled_once fuel index_url books processed w book_elements tasks :
  NoDup (tasks_of (events (get_books_list fuel w))) /\
  NoDup (tasks_of (events (walk fuel index_url books processed w))) /\
  (forall id, id ∈ tasks_of (events (walk fuel index_url books processed w)) ->
              id ∉ processed) /\
  final (schedule book_elements tasks processed w) = w /\
  snd (result (schedule book_elements tasks processed w))
    = list_to_set (book_id_of <$> book_elements) ∪ processed /\
  gets (events (schedule book_elements tasks processed w)) = [].
Proof.
  split; [apply walk_tasks|]. split; [apply walk_tasks|]. split; [apply walk_tasks|].
  rewrite schedule_run. cbn [result events final fst snd].
  split; [reflexivity|]. split; [reflexivity|].
  induction (book_id_of <$> fresh processed book_elements); [reflexivity | assumption].
Qed.

Lemma walk_stops n url books processed w :
  stops_within n url books processed w ->
  forall fuel, (n <= fuel)%nat ->
  exists bs, result (walk fuel url books processed w) = Some bs.
Proof.
  induction 1 as [n url books processed w page Hp Ht Hsel
                 |n url books processed w page Hp Ht Hsel Hnext
                 |n url books processed w page href Hp Ht Hsel Hnext Hrest IH];
    intros [|fuel] Hfuel; try lia; rewrite walk_step; cbn zeta;
    rewrite Hp, Ht; cbn [default from_option id].
  - rewrite Hsel. eexists. reflexivity.
  - destruct (select_booklink page); [congruence|]. rewrite Hnext.
    eexists. reflexivity.
  - destruct (select_booklink page) eqn:Hs; [congruence|]. rewrite Hnext.
    cbn [result fst]. apply IH. lia.
Qed.

(** C3 (as amended).  A turn of the loop of [get_books_list] that fetches
    a page whose text is not empty ends the walk when the page has no
    entry, and, after the page is processed, when the page has no next
    link; when the page has entries and a next link, the walk goes on
    with the URL of the link.  So the walk returns, whatever the fuel
    from [n] on, when such a last page is reached within [n] pages, each
    fetched with a text that is not empty.  Nothing is said of a fetch
    that fails or gives an empty text. *)
Theorem walk_terminates n fuel url books processed w :
  (forall page,
     result (fetch_text url w) = Some page ->
     truthy (Some page) = true ->
     let p := process_page (select_booklink page) books processed
                (final (fetch_text url w)) in
     (select_booklink page = [] ->
      result (walk (S fuel) url books processed w) = Some books) /\
     (select_booklink page <> [] -> find_next page = None ->
      result (walk (S fuel) url books processed w) = Some (fst (result p))) /\
     (forall href, select_booklink page <> [] -> find_next page = Some href ->
      result (walk (S fuel) url books processed w)
      = result (walk fuel ("https://www.gutenberg.org" +:+ href)
                  (fst (result p)) (snd (result p)) (final p)))) /\
  (stops_within n url books processed w -> (n <= fuel)%nat ->
   exists bs, result (walk fuel url books processed w) = Some bs).
Proof.
  split.
  - intros page Hp Ht. cbn zeta. rewrite walk_step. cbn zeta.
    rewrite Hp, Ht. cbn [default from_option id].
    split; [intros ->; reflexivity|]. split.
    + intros Hsel Hnext. destruct (select_booklink page); [congruence|].
      rewrite Hnext. reflexivity.
    + intros href Hsel Hnext. destruct (select_booklink page); [congruence|].
      rewrite Hnext. reflexivity.
  - intros Hs Hn. eapply walk_stops; eassumption.
Qed.

End Walker.

(* ===================================================================== *)
(** * The entry point *)
(* ===================================================================== *)

Section Main.
Context `{Web}.

Lemma main_skips fuel (files : gmap string (list BookRecord)) w :
  files !! artifact <> None ->
  main fuel files w = (Some (Returned files), [EPrint "Data already downloaded."], w).
Proof.
  intros Hex. unfold main. rewrite bool_decide_eq_false_2 by exact Hex. reflexivity.
Qed.

Lemma save_to_csv_artifact books (files files' : gmap string (list BookRecord)) :
  save_to_csv books files = Some files' -> files' !! artifact <> None.
Proof.
  unfold save_to_csv. destruct books; [discriminate|].
  intros [= <-]. rewrite lookup_insert_eq. discriminate.
Qed.

(** C8.  When the artifact does not exist, the script runs
    [get_books_list], once, and hands its books to [save_to_csv]; when the
    artifact exists, it only prints a message: nothing is requested and
    the world and the files stay as they are.  So an invocation that
    follows one that returned requests nothing. *)
Theorem main_idempotent fuel fuel' (files files' : gmap string (list BookRecord)) w books :
  (files !! artifact = None ->
   result (get_books_list fuel w) = Some books ->
   events (main fuel files w) = events (get_books_list fuel w) /\
   final (main fuel files w) = final (get_books_list fuel w) /\
   result (main fuel files w)
   = Some (match save_to_csv books files with
           | Some saved => Returned saved
           | None => Raised files
           end)) /\
  (files !! artifact <> None ->
   main fuel files w = (Some (Returned files), [EPrint "Data already downloaded."], w)) /\
  (result (main fuel files w) = Some (Returned files') ->
   main fuel' files' (final (main fuel files w))
   = (Some (Returned files'), [EPrint "Data already downloaded."],
      final (main fuel files w))).
Proof.
  split; [|split].
  - intros Hnew Hrun. unfold main. rewrite bool_decide_eq_true_2 by exact Hnew.
    run. rewrite Hrun. destruct (save_to_csv books files);
      cbn [ret result events final fst snd]; rewrite app_nil_r; repeat split.
  - apply main_skips.
  - intros Hret. apply main_skips.
    destruct (files !! artifact) as [rows|] eqn:Hf.
    + rewrite main_skips in Hret by congruence.
      injection Hret as <-. congruence.
    + unfold main in Hret. rewrite bool_decide_eq_true_2 in Hret by exact Hf.
      rewrite result_bind in Hret.
      destruct (result (get_books_list fuel w)) as [bs|]; [|discriminate].
      destruct (save_to_csv bs files) as [saved|] eqn:Hs; [|discriminate].
      injection Hret as <-. eapply save_to_csv_artifact. exact Hs.
Qed.

End Main.

(* ===================================================================== *)
(** * Strings: [clean_text], ids, the language filter, file names *)
(* ===================================================================== *)

Section CleanText.

Lemma string_forall_impl (P Q : ascii -> bool) s :
  (forall c, P c = true -> Q c = true) ->
  string_forall P s = true -> string_forall Q s = true.
Proof.
  intros HPQ. induction s as [|c s IH]; [reflexivity|].
  cbn [string_forall]. rewrite !andb_true_iff. intros [Hc Hs].
  split; [apply HPQ, Hc | apply IH, Hs].
Qed.

Lemma sub_non_ascii_ascii in_run s :
  string_forall (fun c => ord c <? 128) (sub_non_ascii in_run s) = true.
Proof.
  revert in_run. induction s as [|c s IH]; intros in_run; [reflexivity|].
  cbn [sub_non_ascii]. destruct (128 <=? ord c) eqn:Hc.
  - destruct in_run; [apply IH|]. cbn [string_forall]. rewrite IH. reflexivity.
  - cbn [string_forall]. rewrite IH, andb_true_r. lia.
Qed.

Lemma sub_control_printable s :
  string_forall (fun c => ord c <? 128) s = true ->
  string_forall printable (sub_control s) = true.
Proof.
  induction s as [|c s IH]; [reflexivity|].
  cbn [string_forall sub_control]. rewrite andb_true_iff. intros [Hc Hs].
  destruct ((ord c <=? 31) || ((127 <=? ord c) && (ord c <=? 159))) eqn:Hctl.
  - apply IH, Hs.
  - cbn [string_forall]. rewrite (IH Hs), andb_true_r. unfold printable. lia.
Qed.

Lemma replace_absent a b s :
  string_forall (fun c => negb (Ascii.eqb c a)) s = true -> replace a b s = s.
Proof.
  induction s as [|c s IH]; [reflexivity|].
  cbn [string_forall replace]. rewrite andb_true_iff. intros [Hc Hs].
  rewrite (IH Hs). destruct (Ascii.eqb c a); [discriminate | reflexivity].
Qed.

Lemma printable_not_control (a : ascii) s :
  (ord a <? 32) = true ->
  string_forall printable s = true ->
  string_forall (fun c => negb (Ascii.eqb c a)) s = true.
Proof.
  intros Ha. apply string_forall_impl. intros c Hc.
  destruct (Ascii.eqb_spec c a) as [->|]; [|reflexivity].
  unfold printable in Hc. lia.
Qed.

Lemma sub_non_ascii_fixed in_run s :
  string_forall printable s = true -> sub_non_ascii in_run s = s.
Proof.
  revert in_run. induction s as [|c s IH]; intros in_run; [reflexivity|].
  cbn [string_forall sub_non_ascii]. rewrite andb_true_iff. intros [Hc Hs].
  unfold printable in Hc.
  destruct (128 <=? ord c) eqn:H128; [lia|]. rewrite (IH false Hs). reflexivity.
Qed.

Lemma sub_control_fixed s :
  string_forall printable s = true -> sub_control s = s.
Proof.
  induction s as [|c s IH]; [reflexivity|].
  cbn [string_forall sub_control]. rewrite andb_true_iff. intros [Hc Hs].
  unfold printable in Hc.
  destruct ((ord c <=? 31) || ((127 <=? ord c) && (ord c <=? 159))) eqn:Hctl; [lia|].
  rewrite (IH Hs). reflexivity.
Qed.

Lemma sub_chain_printable s :
  string_forall printable (sub_control (sub_non_ascii false s)) = true.
Proof. apply sub_control_printable, sub_non_ascii_ascii. Qed.

Lemma clean_text_subs s : clean_text s = sub_control (sub_non_ascii false s).
Proof.
  unfold clean_text. cbn zeta.
  assert (Hp := sub_chain_printable s).
  rewrite (replace_absent (chr 13)) by (apply printable_not_control; [reflexivity | exact Hp]).
  rewrite (replace_absent (chr 10)) by (apply printable_not_control; [reflexivity | exact Hp]).
  rewrite (replace_absent (chr 9)) by (apply printable_not_control; [reflexivity | exact Hp]).
  reflexivity.
Qed.

(** X1.  The text [clean_text] returns holds printable ASCII only, from
    the space to the tilde: no tab, no line break, no other control
    character and nothing beyond ASCII, so a cleaned text stays in its
    field of the TSV file. *)
Theorem clean_text_printable s : string_forall printable (clean_text s) = true.
Proof. rewrite clean_text_subs. apply sub_chain_printable. Qed.

(** X2.  The three calls of [replace] that end [clean_text] change
    nothing: the carriage returns, line feeds and tabs they look for are
    deleted before by the substitution of the control characters, so a
    line break is removed, not turned into a space, and the words around
    it are joined. *)
Theorem clean_text_line_breaks s1 s2 :
  clean_text s1 = sub_control (sub_non_ascii false s1) /\
  (string_forall printable s1 = true -> string_forall printable s2 = true ->
   clean_text (s1 +:+ String (chr 13) (String (chr 10) s2)) = s1 +:+ s2).
Proof.
  split; [apply clean_text_subs|]. intros H1 H2. rewrite clean_text_subs.
  induction s1 as [|c s1 IH].
  - change (sub_control (sub_non_ascii false s2) = s2).
    rewrite sub_non_ascii_fixed, sub_control_fixed by exact H2. reflexivity.
  - cbn [string_forall] in H1. apply andb_true_iff in H1 as [Hc H1].
    change (String c s1 +:+ ?x) with (String c (s1 +:+ x)).
    cbn [sub_non_ascii sub_control]. unfold printable in Hc.
    destruct (128 <=? ord c) eqn:H128; [lia|]. cbn [sub_control].
    destruct ((ord c <=? 31) || ((127 <=? ord c) && (ord c <=? 159))) eqn:Hctl; [lia|].
    rewrite (IH H1). reflexivity.
Qed.

(** X3.  [clean_text] leaves a text of printable ASCII as it is, and
    cleaning twice is cleaning once. *)
Theorem clean_text_idempotent s :
  clean_text (clean_text s) = clean_text s /\
  (string_forall printable s = true -> clean_text s = s).
Proof.
  assert (Hfix : forall t, string_forall printable t = true -> clean_text t = t).
  { intros t Ht. rewrite clean_text_subs, sub_non_ascii_fixed, sub_control_fixed;
      [reflexivity | exact Ht | exact Ht]. }
  split; [apply Hfix; rewrite clean_text_subs; apply sub_chain_printable | apply Hfix].
Qed.

End CleanText.

Section Identifiers.

Lemma append_assoc (a b c : string) : (a +:+ b) +:+ c = a +:+ (b +:+ c).
Proof.
  induction a as [|x a IH]; [reflexivity|].
  change (String x ((a +:+ b) +:+ c) = String x (a +:+ (b +:+ c))).
  rewrite IH. reflexivity.
Qed.

Lemma append_nil_r (a : string) : a +:+ EmptyString = a.
Proof.
  induction a as [|x a IH]; [reflexivity|].
  change (String x (a +:+ EmptyString) = String x a). rewrite IH. reflexivity.
Qed.

Lemma string_forall_app P a b :
  string_forall P (a +:+ b) = string_forall P a && string_forall P b.
Proof.
  induction a as [|x a IH]; [reflexivity|].
  change (P x && string_forall P (a +:+ b) = P x && string_forall P a && string_forall P b).
  rewrite IH, andb_assoc. reflexivity.
Qed.

Lemma last_char_app a b : b <> EmptyString -> last_char (a +:+ b) = last_char b.
Proof.
  intros Hb. induction a as [|x a IH]; [reflexivity|].
  change (match last_char (a +:+ b) with None => Some x | Some d => Some d end
          = last_char b).
  rewrite IH. destruct b as [|y b]; [congruence|].
  cbn [last_char]. destruct (last_char b); reflexivity.
Qed.

Lemma last_segment_from_no_slash acc s :
  string_forall not_slash acc = true ->
  string_forall not_slash (last_segment_from acc s) = true.
Proof.
  revert acc. induction s as [|c s IH]; intros acc Hacc; [exact Hacc|].
  cbn [last_segment_from]. destruct (Ascii.eqb c "/") eqn:Hc.
  - apply IH. reflexivity.
  - apply IH. rewrite string_forall_app, Hacc. cbn [string_forall].
    unfold not_slash. rewrite Hc. reflexivity.
Qed.

Lemma last_segment_from_split acc s :
  exists p, acc +:+ s = p +:+ last_segment_from acc s /\
            (p = EmptyString \/ last_char p = Some "/"%char).
Proof.
  revert acc. induction s as [|c s IH]; intros acc.
  - exists EmptyString. split; [apply append_nil_r | left; reflexivity].
  - cbn [last_segment_from]. destruct (Ascii.eqb_spec c "/") as [->|Hc].
    + destruct (IH EmptyString) as (p & Hp & Hlast).
      exists (acc +:+ String "/" p). split.
      * rewrite append_assoc.
        change (String "/" p +:+ ?x) with (String "/" (p +:+ x)).
        rewrite <- Hp. reflexivity.
      * right. rewrite last_char_app by discriminate.
        destruct Hlast as [->|Hlast]; [reflexivity|].
        cbn [last_char]. rewrite Hlast. reflexivity.
    + destruct (IH (acc +:+ String c EmptyString)) as (p & Hp & Hlast).
      exists p. split; [|exact Hlast].
      rewrite <- Hp, append_assoc. reflexivity.
Qed.

Lemma last_segment_from_plain acc x :
  string_forall not_slash x = true -> last_segment_from acc x = acc +:+ x.
Proof.
  revert acc. induction x as [|c x IH]; intros acc; [symmetry; apply append_nil_r|].
  cbn [string_forall last_segment_from]. rewrite andb_true_iff. intros [Hc Hx].
  unfold not_slash in Hc. destruct (Ascii.eqb c "/"); [discriminate|].
  rewrite (IH _ Hx), append_assoc. reflexivity.
Qed.

Lemma last_segment_from_slash acc p x :
  last_segment_from acc (p +:+ String "/" x) = last_segment_from EmptyString x.
Proof.
  revert acc. induction p as [|c p IH]; intros acc.
  - reflexivity.
  - change (String c p +:+ ?y) with (String c (p +:+ y)).
    cbn [last_segment_from]. destruct (Ascii.eqb c "/"); apply IH.
Qed.

(** X4.  The id [download_books] and [get_books_list] read off a link is
    what follows the last slash of its [href]: it holds no slash, and the
    [href] is the id after a part that is empty or ends with a slash. *)
Theorem book_id_no_slash book :
  string_forall not_slash (book_id_of book) = true /\
  exists p, a_href book = p +:+ book_id_of book /\
            (p = EmptyString \/ last_char p = Some "/"%char).
Proof.
  unfold book_id_of, last_segment. split.
  - apply last_segment_from_no_slash. reflexivity.
  - apply (last_segment_from_split EmptyString).
Qed.

(** X5.  Round trip: the id read off the link [p/x] is [x], whatever the
    path [p] before the last slash, when [x] itself holds no slash. *)
Theorem last_segment_round_trip p x :
  string_forall not_slash x = true ->
  last_segment (p +:+ String "/" x) = x.
Proof.
  intros Hx. unfold last_segment.
  rewrite last_segment_from_slash, last_segment_from_plain by exact Hx.
  reflexivity.
Qed.

End Identifiers.

Section LanguageFilter.

(** X6.  The language filter of [download_books] accepts the word
    "english" in any mix of upper and lower case and nothing else: seven
    characters, each the letter of "english" at its place or its capital.
    A language with anything around or after the word is refused. *)
Theorem english_any_case metadata :
  english metadata = true <->
  exists c1 c2 c3 c4 c5 c6 c7,
    language metadata
    = String c1 (String c2 (String c3 (String c4 (String c5 (String c6
        (String c7 EmptyString)))))) /\
    (c1 = "e" \/ c1 = "E")%char /\ (c2 = "n" \/ c2 = "N")%char /\
    (c3 = "g" \/ c3 = "G")%char /\ (c4 = "l" \/ c4 = "L")%char /\
    (c5 = "i" \/ c5 = "I")%char /\ (c6 = "s" \/ c6 = "S")%char /\
    (c7 = "h" \/ c7 = "H")%char.
Proof.
  unfold english. rewrite String.eqb_eq. exact (lower_english (language metadata)).
Qed.

End LanguageFilter.

Section FileNames.
Import TsvToTxt.

Lemma substring_length n s : (String.length (substring 0 n s) <= n)%nat.
Proof.
  revert s. induction n as [|n IH]; intros [|c s]; cbn; try lia.
  specialize (IH s). lia.
Qed.

Lemma substring_forall P n s :
  string_forall P s = true -> string_forall P (substring 0 n s) = true.
Proof.
  revert s. induction n as [|n IH]; intros [|c s]; cbn; try reflexivity.
  rewrite !andb_true_iff. intros [Hc Hs]. split; [exact Hc | apply IH, Hs].
Qed.

Lemma substring_short n s : (String.length s <= n)%nat -> substring 0 n s = s.
Proof.
  revert s. induction n as [|n IH]; intros [|c s]; cbn; try reflexivity; try lia.
  intros Hl. rewrite IH by lia. reflexivity.
Qed.

Lemma keep_kept s : string_forall kept (keep s) = true.
Proof.
  induction s as [|c s IH]; [reflexivity|].
  cbn [keep]. destruct (kept c) eqn:Hc; [|exact IH].
  cbn [string_forall]. rewrite Hc, IH. reflexivity.
Qed.

Lemma keep_fixed s : string_forall kept s = true -> keep s = s.
Proof.
  induction s as [|c s IH]; [reflexivity|].
  cbn [string_forall keep]. rewrite andb_true_iff. intros [Hc Hs].
  rewrite Hc, (IH Hs). reflexivity.
Qed.

Lemma kept_not_slash c : kept c = true -> not_slash c = true.
Proof.
  intros Hc. unfold not_slash. destruct (Ascii.eqb_spec c "/") as [->|]; [|reflexivity].
  vm_compute in Hc. discriminate.
Qed.

(** X7.  The title that [save_texts_to_files] puts in a file name holds
    at most 50 characters, each alphanumeric or one of the space, the
    underscore, the dot and the comma: it holds no slash, so the file is
    written in the directory [texts] itself.  Such a title is kept as it
    is. *)
Theorem file_title_safe title :
  (String.length (file_title title) <= 50)%nat /\
  string_forall kept (file_title title) = true /\
  string_forall not_slash (file_title title) = true /\
  file_title (file_title title) = file_title title.
Proof.
  unfold file_title.
  assert (Hk : string_forall kept (substring 0 50 (keep title)) = true)
    by apply substring_forall, keep_kept.
  split; [apply substring_length|]. split; [exact Hk|]. split.
  - eapply string_forall_impl; [apply kept_not_slash | exact Hk].
  - rewrite (keep_fixed _ Hk). apply substring_short, substring_length.
Qed.

End FileNames.

Section FilePaths.
Import TsvToTxt.

(** X8.  The path [save_texts_to_files] writes a book to is the directory
    [texts] and a file name in it: when the id holds no slash, what
    follows the last slash of the path is the whole name, id, underscore,
    title and extension. *)
Theorem file_path_in_texts id title :
  string_forall not_slash id = true ->
  last_segment (file_path id title) = id +:+ "_" +:+ file_title title +:+ ".txt".
Proof.
  intros Hid. unfold file_path, last_segment.
  change ("texts/" +:+ ?x) with ("texts" +:+ String "/" x).
  rewrite last_segment_from_slash, last_segment_from_plain; [reflexivity|].
  rewrite !string_forall_app, Hid.
  rewrite (string_forall_impl kept not_slash (file_title title) kept_not_slash)
    by (unfold file_title; apply substring_forall, keep_kept).
  reflexivity.
Qed.

End FilePaths.

(* ===================================================================== *)
(** * More on the Transport *)
(* ===================================================================== *)

Section TransportMore.
Context `{Web}.

Ltac one_attempt :=
  rewrite fetch_text_loop_step;
  let o := fresh "o" in let w := fresh "w" in
  destruct (serve _ _) as [o w];
  let r := fresh "response" in
  destruct o as [| ? | r];
  [ | | destruct (status r =? 200) eqn:? ];
  cbn [result events final fst snd].

(** X9.  [fetch_text] returns [None] exactly when the server fails the
    three attempts, each by a timeout, an exception or a status other
    than 200; the URL has been requested three times then. *)
Theorem fetch_text_exhausted url w :
  (result (fetch_text url w) = None <->
   Forall (fun o => succeeded o = false) (served url w 3)) /\
  (result (fetch_text url w) = None ->
   gets (events (fetch_text url w)) = [url; url; url]).
Proof.
  rewrite fetch_text_attempts. cbn [served].
  one_attempt; try one_attempt; try one_attempt.
  all: try rewrite backoff_0; try rewrite backoff_1; try rewrite backoff_2.
  all: cbn [fetch_text_loop ret sleep emit result events final fst snd app
            gets omap list_omap].
  all: split; [split|]; try discriminate; try reflexivity.
  all: try (intros _; repeat constructor; cbn [succeeded]; assumption).
  all: intros Hf;
       repeat match goal with
       | Hf : Forall _ (_ :: _) |- _ => inversion Hf; clear Hf; subst
       | Hf : Forall _ (let '(_, _) := _ in _) |- _ => fail
       end;
       cbn [succeeded] in *; congruence.
Qed.

(** X10.  The seconds [fetch_text] sleeps are exactly [2 ^ i] for the
    attempts [i], among the first two, that were made and ended in a
    timeout or an exception.  An attempt answered with a status other than
    200 is followed by the next request without a sleep. *)
Theorem fetch_text_sleeps url w :
  sleeps (events (fetch_text url w))
  = omap (slept (served url w 3))
      (seq 0 (Nat.min 2 (length (gets (events (fetch_text url w)))))).
Proof.
  rewrite fetch_text_attempts. unfold slept. cbn [served].
  one_attempt; try one_attempt; try one_attempt.
  all: try rewrite backoff_0; try rewrite backoff_1; try rewrite backoff_2.
  all: cbn [fetch_text_loop ret sleep emit result events final fst snd app
            gets sleeps omap list_omap length Nat.min seq lookup list_lookup raised].
  all: reflexivity.
Qed.

End TransportMore.

(* ===================================================================== *)
(** * More on the Locator *)
(* ===================================================================== *)

Section LocatorMore.
Context `{Web}.

Lemma versioned_suffix book_id i f :
  versioned book_id i +:+ f = unversioned book_id +:+ ("-" +:+ str i +:+ f).
Proof. unfold versioned, unversioned. rewrite !append_assoc. reflexivity. Qed.

Lemma versions_suffixes book_id (l : list Z) :
  flat_map (fun i => (fun f => versioned book_id i +:+ f) <$> formats) l
  = (fun s => unversioned book_id +:+ s)
      <$> flat_map (fun i => (fun f => "-" +:+ str i +:+ f) <$> formats) l.
Proof.
  induction l as [|i l IH]; [reflexivity|].
  cbn [flat_map]. rewrite fmap_app, IH. f_equal.
  rewrite <- list_fmap_compose. apply list_fmap_ext.
  intros _ f _. apply versioned_suffix.
Qed.

Lemma candidates_suffixes book_id :
  candidates book_id = (fun s => unversioned book_id +:+ s) <$> suffixes.
Proof.
  unfold candidates, suffixes. rewrite fmap_app, versions_suffixes. reflexivity.
Qed.

Lemma suffixes_NoDup : NoDup suffixes.
Proof. apply (bool_decide_unpack _). vm_compute. exact I. Qed.

(** X11.  The 77 candidate URLs of a book are pairwise different,
    whatever its id: the Locator probes no URL twice. *)
Theorem candidates_distinct book_id :
  NoDup (candidates book_id) /\ length (candidates book_id) = 77%nat.
Proof.
  split; [|reflexivity].
  rewrite candidates_suffixes. apply NoDup_fmap_2; [|apply suffixes_NoDup].
  intros s1 s2 Hs. exact (String.app_inj _ _ _ Hs).
Qed.

Lemma requested_in_order_length us gs :
  requested_in_order us gs ->
  (length us <= length gs <= 3 * length us)%nat.
Proof.
  induction 1 as [|u us k gs Hk _ IH]; [cbn; lia|].
  rewrite length_app, length_replicate. cbn [length]. lia.
Qed.

Lemma requested_in_order_elem us gs u :
  requested_in_order us gs -> u ∈ gs -> u ∈ us.
Proof.
  induction 1 as [|u0 us k gs Hk _ IH]; [intros Hin; inversion Hin|].
  rewrite elem_of_app, elem_of_cons. intros [Hin|Hin].
  - apply elem_of_replicate in Hin as [-> _]. left. reflexivity.
  - right. apply IH, Hin.
Qed.

Lemma requested_in_order_all us gs u :
  requested_in_order us gs -> u ∈ us -> u ∈ gs.
Proof.
  induction 1 as [|u0 us k gs Hk _ IH]; [intros Hin; inversion Hin|].
  rewrite elem_of_cons, elem_of_app. intros [->|Hin].
  - left. destruct k as [|k]; [lia|]. left.
  - right. apply IH, Hin.
Qed.

Lemma count_occ_replicate (u v : string) k :
  count_occ string_dec (replicate k v) u = if string_dec v u then k else O.
Proof.
  induction k as [|k IH]; cbn [replicate count_occ].
  - destruct (string_dec v u); reflexivity.
  - rewrite IH. destruct (string_dec v u); reflexivity.
Qed.

Lemma requested_in_order_count us gs u :
  NoDup us -> requested_in_order us gs -> (count_occ string_dec gs u <= 3)%nat.
Proof.
  intros Hnd Hreq. induction Hreq as [|u0 us k gs Hk Hreq IH]; [cbn; lia|].
  apply NoDup_cons in Hnd as [Hu0 Hnd]. specialize (IH Hnd).
  rewrite count_occ_app, count_occ_replicate.
  destruct (string_dec u0 u) as [->|Hne]; [|lia].
  assert (Hz : count_occ string_dec gs u = O).
  { apply count_occ_not_In. intros Hin. apply Hu0.
    eapply requested_in_order_elem; [exact Hreq|]. apply list_elem_of_In, Hin. }
  lia.
Qed.

Lemma get_book_data_gets book_id w :
  gets (events (get_book_data book_id w))
  = gets (events (first_success fetch_text (candidates book_id) w)) /\
  result (get_book_data book_id w)
  = result (first_success fetch_text (candidates book_id) w).
Proof.
  unfold get_book_data. rewrite get_book_data_with_locate.
  destruct (locate_first_success fetch_text book_id w) as (Hr & _ & Hn).
  split; [|exact Hr]. rewrite <- gets_net, Hn, gets_net. reflexivity.
Qed.

Lemma get_book_data_gets_length book_id w :
  (length (gets (events (get_book_data book_id w))) <= 231)%nat.
Proof.
  destruct (get_book_data_gets book_id w) as [-> _].
  destruct (first_success_requests (candidates book_id) w) as (n & Hn & Hreq & _).
  apply requested_in_order_length in Hreq. rewrite length_take in Hreq.
  change (length (candidates book_id)) with 77%nat in *. lia.
Qed.

(** X12.  What a book costs: [get_book_data] requests candidate URLs of
    the book only, each at most three times, hence at most 231 requests;
    when it returns [None] it has requested each of the 77 candidates. *)
Theorem get_book_data_requests book_id w :
  (length (gets (events (get_book_data book_id w))) <= 231)%nat /\
  (forall u, u ∈ gets (events (get_book_data book_id w)) -> u ∈ candidates book_id) /\
  (forall u, (count_occ string_dec (gets (events (get_book_data book_id w))) u <= 3)%nat) /\
  (result (get_book_data book_id w) = None ->
   forall u, u ∈ candidates book_id -> u ∈ gets (events (get_book_data book_id w))).
Proof.
  split; [apply get_book_data_gets_length|].
  destruct (get_book_data_gets book_id w) as [-> ->].
  destruct (first_success_requests (candidates book_id) w) as (n & Hn & Hreq & Hnone).
  assert (Hnd : NoDup (take n (candidates book_id))).
  { eapply sublist_NoDup; [|apply sublist_take].
    rewrite candidates_suffixes. apply NoDup_fmap_2; [|apply suffixes_NoDup].
    intros s1 s2 Hs. exact (String.app_inj _ _ _ Hs). }
  split; [|split].
  - intros u Hu. rewrite <- (take_drop n (candidates book_id)).
    apply elem_of_app. left. eapply requested_in_order_elem; eassumption.
  - intros u. eapply requested_in_order_count; eassumption.
  - intros Hr u Hu. rewrite (Hnone Hr), firstn_all in Hreq.
    eapply requested_in_order_all; eassumption.
Qed.

Lemma probes_last (fetch : string -> M (option string)) l w text :
  result (for_return l (probe fetch) w) = Some text ->
  exists c, c ∈ l /\
    last (events (for_return l (probe fetch) w))
    = Some (ELog INFO ("Found valid text at " +:+ fst c)).
Proof.
  revert w. induction l as [|c l IH]; intros w; [discriminate|].
  cbn [for_return]. rewrite result_bind, events_bind, probe_run.
  destruct (truthy (result (fetch (fst c) w))) eqn:Ht; cbn [result events final fst snd].
  - destruct (result (fetch (fst c) w)) as [s|]; [|discriminate].
    intros _. exists c. split; [left|].
    cbn [ret events fst snd]. rewrite app_nil_r. apply last_snoc.
  - intros Hr. destruct (IH _ Hr) as (c' & Hc' & Hlast).
    exists c'. split; [right; exact Hc'|].
    rewrite last_app, Hlast. reflexivity.
Qed.

(** X20.  The last record [get_book_data] logs tells its result: the
    warning that all URL patterns failed when it returns [None], and
    "Found valid text at" with a candidate URL of the book when it returns
    a content. *)
Theorem get_book_data_last_log book_id w :
  (result (get_book_data book_id w) = None ->
   last (events (get_book_data book_id w))
   = Some (ELog WARNING ("Book ID " +:+ book_id +:+ ": All URL patterns failed."))) /\
  (forall text, result (get_book_data book_id w) = Some text ->
   exists url, url ∈ candidates book_id /\
     last (events (get_book_data book_id w))
     = Some (ELog INFO ("Found valid text at " +:+ url))).
Proof.
  unfold get_book_data. rewrite get_book_data_with_locate. unfold locate.
  rewrite result_bind, events_bind.
  destruct (result (for_return _ _ w)) as [text|] eqn:Hr; cbn [ret log emit result events fst snd].
  - split; [discriminate|]. intros text' _.
    destruct (probes_last _ _ _ _ Hr) as (c & Hc & Hlast).
    exists (fst c). split.
    + rewrite <- candidates_tagged. apply list_elem_of_fmap. exists c. split; [reflexivity | exact Hc].
    + rewrite app_nil_r. exact Hlast.
  - split; [|discriminate]. intros _.
    rewrite run_bind. cbn [emit ret result events final fst snd].
    rewrite app_nil_r. apply last_snoc.
Qed.

End LocatorMore.

(* ===================================================================== *)
(** * More on the Metadata Resolver and the Orchestrator *)
(* ===================================================================== *)

Section OrchestratorMore.
Context `{Web}.

Lemma updates_app t1 t2 : updates (t1 ++ t2) = (updates t1 + updates t2)%nat.
Proof. unfold updates. rewrite List.filter_app, length_app. reflexivity. Qed.

Lemma quiet_updates t : Forall quiet_event t -> updates t = O.
Proof.
  induction 1 as [|e t He _ IH]; [reflexivity|].
  destruct e; cbn in He; try tauto; exact IH.
Qed.

Lemma fetch_text_quiet url w : Forall quiet_event (events (fetch_text url w)).
Proof.
  eapply Forall_impl; [apply fetch_text_events|].
  intros e He. destruct e; cbn in *; tauto.
Qed.

Lemma for_return_quiet {A B} (xs : list A) (body : A -> M (option B)) w :
  (forall x w, Forall quiet_event (events (body x w))) ->
  Forall quiet_event (events (for_return xs body w)).
Proof.
  intros Hb. revert w. induction xs as [|x xs IH]; intros w; [constructor|].
  cbn [for_return]. rewrite events_bind. apply Forall_app. split; [apply Hb|].
  destruct (result (body x w)); [constructor | apply IH].
Qed.

Lemma get_book_data_quiet book_id w :
  Forall quiet_event (events (get_book_data book_id w)).
Proof.
  unfold get_book_data. rewrite get_book_data_with_locate. unfold locate.
  rewrite events_bind. apply Forall_app. split.
  - apply for_return_quiet. intros c w'. rewrite probe_run.
    destruct (truthy _); cbn [events fst snd]; apply Forall_app;
      (split; [apply fetch_text_quiet|]);
      [repeat constructor | destruct (snd c); repeat constructor].
  - destruct (result _); repeat constructor.
Qed.

Lemma year_of_shaped row y : year_of row = Some y -> year_shaped y.
Proof.
  unfold year_of. destruct (contains "Release Date" _); [|discriminate].
  intros Hs. apply search_d4_first in Hs as (_ & _ & _ & Hy & _).
  right. exact Hy.
Qed.

Lemma fold_read_row_shape rows m :
  year_shaped (year m) -> trimmed (language m) ->
  year_shaped (year (fold_left read_row rows m)) /\
  trimmed (language (fold_left read_row rows m)).
Proof.
  revert m. induction rows as [|row rows IH]; intros m Hy Hl; [split; assumption|].
  cbn [fold_left]. apply IH.
  - rewrite read_row_year. destruct (year_of row) as [y|] eqn:Hrow; [|exact Hy].
    eapply year_of_shaped. exact Hrow.
  - rewrite read_row_language. unfold language_of.
    destruct (contains "Language" _); [|exact Hl].
    destruct (strip_trimmed (default EmptyString (td row))) as (_ & _ & _ & _ & _ & Ht).
    exact Ht.
Qed.

Lemma unknown_shape : year_shaped (year unknown) /\ trimmed (language unknown).
Proof.
  split; [left; reflexivity|]. cbn. split; [reflexivity|].
  eexists. split; reflexivity.
Qed.

Lemma get_book_metadata_shape book_id w :
  year_shaped (year (result (get_book_metadata book_id w))) /\
  trimmed (language (result (get_book_metadata book_id w))).
Proof.
  rewrite get_book_metadata_run. cbn zeta. cbn [result fst].
  destruct (result (fetch_text _ w)) as [[|c s]|]; try apply unknown_shape.
  destruct (find_bibrec _); [|apply unknown_shape].
  apply fold_read_row_shape; apply unknown_shape.
Qed.

(** X13.  Whatever the page of the book holds, the year
    [get_book_metadata] returns is "Unknown" or four digits, and the
    language it returns neither starts nor ends with white space. *)
Theorem get_book_metadata_well_formed book_id w :
  let metadata := result (get_book_metadata book_id w) in
  (year metadata = "Unknown" \/
   (String.length (year metadata) = 4%nat /\
    string_forall is_digit (year metadata) = true)) /\
  trimmed (language metadata).
Proof.
  cbn zeta. destruct (get_book_metadata_shape book_id w) as [Hy Hl].
  split; [|exact Hl]. destruct Hy as [Hy|Hy]; [left; exact Hy|]. right.
  revert Hy. generalize (year (result (get_book_metadata book_id w))) as y.
  intros y. unfold match_d4.
  destruct y as [|a [|b [|c [|d q]]]]; try discriminate.
  destruct (is_digit a && is_digit b && is_digit c && is_digit d) eqn:Hd;
    [|discriminate].
  intros [= <-]. split; [reflexivity|]. cbn [string_forall].
  rewrite andb_true_r, !andb_assoc. exact Hd.
Qed.

(** X14.  A book whose catalogue page cannot be fetched, or is empty, is
    not downloaded: its language is "Unknown", which the filter refuses,
    so [download_books] returns [None] after the fetch of the page and the
    progress update, and requests none of the files of the book. *)
Theorem download_books_unknown book w :
  let page :=
    fetch_text ("https://www.gutenberg.org/ebooks/" +:+ book_id_of book) w in
  truthy (result page) = false ->
  download_books book w = (None, events page ++ [EUpdate], final page).
Proof.
  cbn zeta. intros Hp. rewrite download_books_run. cbn zeta.
  rewrite get_book_metadata_run. cbn zeta. cbn [result events final fst snd].
  destruct (result (fetch_text _ w)) as [[|c s]|]; try discriminate; reflexivity.
Qed.

(** X15.  [download_books] updates the progress once, whatever becomes of
    the book, and as its last action; it makes at most 234 requests: 3
    for the page of the book and 231 for its files. *)
Theorem download_books_progress book w :
  updates (events (download_books book w)) = 1%nat /\
  last (events (download_books book w)) = Some EUpdate /\
  (length (gets (events (download_books book w))) <= 234)%nat.
Proof.
  rewrite download_books_run. cbn zeta. rewrite get_book_metadata_run. cbn zeta.
  cbn [result events final fst snd].
  set (page := fetch_text _ w).
  assert (Hq := fetch_text_quiet ("https://www.gutenberg.org/ebooks/" +:+ book_id_of book) w).
  fold page in Hq.
  destruct (fetch_text_gets ("https://www.gutenberg.org/ebooks/" +:+ book_id_of book) w)
    as (k & Hk & Hg).
  fold page in Hg.
  destruct (english _); cbn [events fst snd].
  - set (data := get_book_data (book_id_of book) (final page)).
    assert (Hd := get_book_data_quiet (book_id_of book) (final page)).
    assert (Hl := get_book_data_gets_length (book_id_of book) (final page)).
    fold data in Hd, Hl.
    rewrite !updates_app, (quiet_updates _ Hq), (quiet_updates _ Hd).
    split; [reflexivity|]. split.
    + rewrite !app_assoc. apply last_snoc.
    + rewrite !gets_app, !length_app, Hg, length_replicate. cbn [gets omap list_omap length]. lia.
  - rewrite updates_app, (quiet_updates _ Hq).
    split; [reflexivity|]. split.
    + apply last_snoc.
    + rewrite gets_app, length_app, Hg, length_replicate. cbn [gets omap list_omap length]. lia.
Qed.

End OrchestratorMore.

(* ===================================================================== *)
(** * More on the Index Walker and the entry point *)
(* ===================================================================== *)

Section WalkerMore.
Context `{Web}.

Lemma fresh_length processed book_elements :
  (length (fresh processed book_elements) <= length book_elements)%nat.
Proof.
  revert processed. induction book_elements as [|book rest IH]; intros processed;
    [reflexivity|].
  cbn [fresh]. case_bool_decide; cbn [length].
  - specialize (IH ({[book_id_of book]} ∪ processed)). lia.
  - specialize (IH processed). lia.
Qed.

Lemma fresh_length_processed processed book_elements book :
  book ∈ book_elements -> book_id_of book ∈ processed ->
  (length (fresh processed book_elements) < length book_elements)%nat.
Proof.
  revert processed. induction book_elements as [|b rest IH]; intros processed Hin Hp;
    [inversion Hin|].
  cbn [fresh]. apply elem_of_cons in Hin as [<-|Hin].
  - rewrite bool_decide_eq_false_2 by (intros Hn; exact (Hn Hp)).
    cbn [length]. pose proof (fresh_length processed rest). lia.
  - case_bool_decide; cbn [length].
    + assert (Hp' : book_id_of book ∈ ({[book_id_of b]} ∪ processed))
        by (apply elem_of_union_r, Hp).
      specialize (IH _ Hin Hp'). lia.
    + specialize (IH _ Hin Hp). lia.
Qed.

Lemma gather_step {A} (task : M A) (rest : list (M A)) w :
  gather (task :: rest) w =
  (result (task w) :: result (gather rest (final (task w))),
   events (task w) ++ events (gather rest (final (task w))),
   final (gather rest (final (task w)))).
Proof.
  cbn [gather]. rewrite !run_bind. cbn [ret result events final fst snd].
  rewrite app_nil_r. reflexivity.
Qed.

Lemma gather_updates (books : list BookElement) w :
  updates (events (gather (download_books <$> books) w)) = length books.
Proof.
  revert w. induction books as [|book books IH]; intros w; [reflexivity|].
  cbn [fmap list_fmap]. rewrite gather_step. cbn [events fst snd].
  rewrite updates_app, IH. cbn [length]. f_equal.
  rewrite download_books_run. cbn zeta. rewrite get_book_metadata_run. cbn zeta.
  cbn [result events final fst snd].
  destruct (english _); cbn [events fst snd];
    rewrite !updates_app, ?(quiet_updates _ (fetch_text_quiet _ _)),
      ?(quiet_updates _ (get_book_data_quiet _ _)); reflexivity.
Qed.

(** X16.  The progress bar of a page is opened with the number of entries
    of the page and closed at the end, but it is updated once for each
    entry scheduled only: on a page that lists a book already processed,
    the bar is closed before it is full. *)
Theorem process_page_progress book_elements books processed w :
  let t := events (process_page book_elements books processed w) in
  head t = Some (ETqdm (length book_elements)) /\
  last t = Some EClose /\
  updates t = length (fresh processed book_elements) /\
  (updates t <= length book_elements)%nat /\
  (forall book, book ∈ book_elements -> book_id_of book ∈ processed ->
                (updates t < length book_elements)%nat).
Proof.
  cbn zeta. rewrite process_page_run. cbn zeta. cbn [events fst snd].
  assert (Hu : updates (ETqdm (length book_elements)
      :: (ETask <$> (book_id_of <$> fresh processed book_elements)) ++
         events (gather (download_books <$> fresh processed book_elements) w) ++ [EClose])
    = length (fresh processed book_elements)).
  { change (updates (ETqdm ?n :: ?t)) with (updates t).
    rewrite !updates_app, gather_updates.
    assert (Hz : updates (ETask <$> (book_id_of <$> fresh processed book_elements)) = O)
      by (induction (book_id_of <$> fresh processed book_elements); [reflexivity | assumption]).
    rewrite Hz. cbn. lia. }
  rewrite Hu. split; [reflexivity|]. split.
  - rewrite app_comm_cons, app_assoc. apply last_snoc.
  - split; [reflexivity|]. split; [apply fresh_length|].
    intros book Hin Hp. eapply fresh_length_processed; eassumption.
Qed.

Lemma download_books_sound book w record :
  result (download_books book w) = Some record ->
  ID record = book_id_of book /\ sound_record record.
Proof.
  rewrite download_books_run. cbn zeta.
  destruct (english _); cbn [result fst]; [|discriminate].
  destruct (result (get_book_data _ _)) as [[|c s]|] eqn:Hd; cbn [truthy];
    try discriminate.
  intros [= <-]. split; [reflexivity|]. unfold sound_record. cbn [Text Year ID].
  split; [discriminate|]. split.
  - apply get_book_metadata_shape.
  - unfold book_id_of, last_segment. apply last_segment_from_no_slash. reflexivity.
Qed.

Lemma gather_records (books : list BookElement) w :
  ID <$> omap id (result (gather (download_books <$> books) w))
    `sublist_of` (book_id_of <$> books) /\
  Forall sound_record (omap id (result (gather (download_books <$> books) w))).
Proof.
  revert w. induction books as [|book books IH]; intros w; [split; constructor|].
  cbn [fmap list_fmap]. rewrite gather_step. cbn [result fst omap list_omap].
  destruct (IH (final (download_books book w))) as [Hsub Hsound].
  destruct (result (download_books book w)) as [record|] eqn:Hr; cbn [id].
  - destruct (download_books_sound _ _ _ Hr) as [Hid Hs].
    cbn [fmap list_fmap]. rewrite Hid. split; [apply sublist_skip, Hsub|].
    constructor; assumption.
  - split; [apply sublist_cons, Hsub | exact Hsound].
Qed.

Lemma walk_records fuel url books processed w bs :
  result (walk fuel url books processed w) = Some bs ->
  NoDup (ID <$> books) ->
  (forall i, i ∈ ID <$> books -> i ∈ processed) ->
  Forall sound_record books ->
  NoDup (ID <$> bs) /\ Forall sound_record bs /\ books `prefix_of` bs.
Proof.
  revert url books processed w.
  induction fuel as [|fuel IH]; intros url books processed w; [discriminate|].
  rewrite walk_step. cbn zeta.
  destruct (truthy (result (fetch_text url w))); [|apply IH].
  destruct (select_booklink _) as [|book rest] eqn:Hsel.
  - intros [= <-] Hnd _ Hs. split; [exact Hnd|]. split; [exact Hs | reflexivity].
  - rewrite <- Hsel. set (entries := select_booklink _).
    set (w1 := final (fetch_text url w)).
    rewrite process_page_run. cbn zeta. cbn [result events final fst snd].
    destruct (gather_records (fresh processed entries) w1) as [Hsub Hsound].
    set (rs := omap id (result (gather (download_books <$> fresh processed entries) w1))) in *.
    intros Hres Hnd Hin Hs.
    assert (Hnd' : NoDup (ID <$> (books ++ rs))).
    { rewrite fmap_app. apply NoDup_app. split; [exact Hnd|]. split.
      - intros i Hi Hi'. apply Hin in Hi.
        eapply fresh_not_processed; [|exact Hi].
        eapply elem_of_sublist; eassumption.
      - eapply sublist_NoDup; [apply fresh_NoDup | exact Hsub]. }
    assert (Hin' : forall i, i ∈ ID <$> (books ++ rs) ->
                     i ∈ list_to_set (book_id_of <$> entries) ∪ processed).
    { intros i. rewrite fmap_app, elem_of_app. intros [Hi|Hi].
      - apply elem_of_union_r, Hin, Hi.
      - apply elem_of_union_l, elem_of_list_to_set.
        eapply fresh_subset. eapply elem_of_sublist; eassumption. }
    assert (Hs' : Forall sound_record (books ++ rs))
      by (apply Forall_app; split; assumption).
    destruct (find_next _) as [href|].
    + cbn [result fst] in Hres.
      destruct (IH _ _ _ _ Hres Hnd' Hin' Hs') as (H1 & H2 & H3).
      split; [exact H1|]. split; [exact H2|].
      etrans; [|exact H3]. apply prefix_app_r. reflexivity.
    + injection Hres as <-. split; [exact Hnd'|]. split; [exact Hs'|].
      apply prefix_app_r. reflexivity.
Qed.

(** X17.  The books [get_books_list] returns have pairwise different ids;
    each has a text that is not empty, a year that is "Unknown" or four
    digits, and an id without a slash. *)
Theorem get_books_list_records fuel w books :
  result (get_books_list fuel w) = Some books ->
  NoDup (ID <$> books) /\ Forall sound_record books.
Proof.
  intros Hres. unfold get_books_list in Hres.
  destruct (walk_records _ _ _ _ _ _ Hres) as (Hnd & Hs & _).
  - constructor.
  - intros i Hi. inversion Hi.
  - constructor.
  - split; assumption.
Qed.

(** X18.  A page of the index whose fetch fails does not end the walk:
    the loop has no branch for it and fetches the same URL again.  While
    the fetch of a URL keeps failing, the walk started there never
    returns, and after [fuel] turns it has made [fuel] requests at
    least. *)
Theorem walk_retries_forever url :
  (forall w, truthy (result (fetch_text url w)) = false) ->
  forall fuel books processed w,
    result (walk fuel url books processed w) = None /\
    (fuel <= length (gets (events (walk fuel url books processed w))))%nat.
Proof.
  intros Hfail fuel books processed. induction fuel as [|fuel IH]; intros w.
  - split; [reflexivity | cbn; lia].
  - rewrite walk_step. cbn zeta. rewrite Hfail. cbn [result events fst snd].
    destruct (IH (final (fetch_text url w))) as [Hr Hl].
    split; [exact Hr|].
    destruct (fetch_text_gets url w) as (k & Hk & Hg).
    rewrite gets_app, length_app, Hg, length_replicate. lia.
Qed.

(** X19.  A run that finds no book writes no file: [save_to_csv] raises
    on the empty list, the script ends with the exception and the files
    as they were, and the next invocation walks the index again. *)
Theorem main_empty_run fuel fuel' (files : gmap string (list BookRecord)) w :
  files !! artifact = None ->
  result (get_books_list fuel w) = Some [] ->
  result (main fuel files w) = Some (Raised files) /\
  events (main fuel' files (final (main fuel files w)))
  = events (get_books_list fuel' (final (main fuel files w))).
Proof.
  intros Hnew Hrun. split.
  - unfold main. rewrite bool_decide_eq_true_2 by exact Hnew.
    rewrite result_bind, Hrun. reflexivity.
  - unfold main at 1. rewrite bool_decide_eq_true_2 by exact Hnew.
    rewrite events_bind.
    destruct (result (get_books_list fuel' _)) as [books|];
      [destruct (save_to_csv books files)|];
      cbn [ret events fst snd]; apply app_nil_r.
Qed.

End WalkerMore.

(* ===================================================================== *)
(** * The crawler on the scenarios *)
(* ===================================================================== *)

Module Runs.
Import Scenario.

Example lower_English : lower "EngLish" = "english".
Proof. reflexivity. Qed.

Example strip_English : strip (String (chr 10) " English  ") = "English".
Proof. reflexivity. Qed.

Example search_d4_release : search_d4 "Mar 1, 1998 [eBook #12345]" = Some "1998".
Proof. reflexivity. Qed.

Example last_segment_ebook : last_segment "/ebooks/12345" = "12345".
Proof. reflexivity. Qed.

Example clean_text_line :
  clean_text ("caf" +:+ String (chr 233) (String (chr 10) "bar")) = "caf bar".
Proof. reflexivity. Qed.

Example candidates_first :
  take 8 (candidates "12345") =
  [ "https://www.gutenberg.org/files/12345/12345-0.epub.noimages";
    "https://www.gutenberg.org/files/12345/12345-0.epub";
    "https://www.gutenberg.org/files/12345/12345-0.html.noimages";
    "https://www.gutenberg.org/files/12345/12345-0.html";
    "https://www.gutenberg.org/files/12345/12345-0.pdf";
    "https://www.gutenberg.org/files/12345/12345-0.txt";
    "https://www.gutenberg.org/files/12345/12345-0.txt.utf8";
    "https://www.gutenberg.org/files/12345/12345-1.epub.noimages" ].
Proof. reflexivity. Qed.

Example candidates_last :
  drop 69 (candidates "12345") =
  [ "https://www.gutenberg.org/files/12345/12345-9.txt.utf8";
    "https://www.gutenberg.org/files/12345/12345.epub.noimages";
    "https://www.gutenberg.org/files/12345/12345.epub";
    "https://www.gutenberg.org/files/12345/12345.html.noimages";
    "https://www.gutenberg.org/files/12345/12345.html";
    "https://www.gutenberg.org/files/12345/12345.pdf";
    "https://www.gutenberg.org/files/12345/12345.txt";
    "https://www.gutenberg.org/files/12345/12345.txt.utf8" ].
Proof. reflexivity. Qed.

(** The library: the two English books are returned, in the order of the
    listing; the French one is not, and the book listed twice is resolved
    once. *)
Example library_books :
  result (@get_books_list library 2 0%nat) =
  Some [ {| ID := "12345"; Title := "Moby Dick"; Author := "Herman Melville";
            Year := "1998"; Text := "Call me Ishmael." |};
         {| ID := "777"; Title := "No Title"; Author := "Unknown Author";
            Year := "Unknown"; Text := "caf" +:+ String (chr 233) EmptyString |} ].
Proof. vm_compute. reflexivity. Qed.

Example library_tasks :
  tasks_of (events (@get_books_list library 2 0%nat)) = ["12345"; "99999"; "777"].
Proof. vm_compute. reflexivity. Qed.

(** Three failures answered 404: three requests and no sleep between
    them. *)
Example missing_fetch :
  @fetch_text missing "u" 0%nat =
  (None,
   [ EGet "u"; ELog ERROR "Failed to fetch u: Status code 404";
     EGet "u"; ELog ERROR "Failed to fetch u: Status code 404";
     EGet "u"; ELog ERROR "Failed to fetch u: Status code 404" ],
   3%nat).
Proof. reflexivity. Qed.

Example library_metadata :
  result (@get_book_metadata library "12345" 0%nat)
  = {| year := "1998"; language := "English" |}.
Proof. vm_compute. reflexivity. Qed.

(** A run that finds no book: [save_to_csv] raises and no file is written,
    so the next invocation runs again. *)
Example main_no_book :
  result (@get_books_list french_only 1 0%nat) = Some [] /\
  result (@main french_only 1 ∅ 0%nat) = Some (Raised ∅).
Proof. split; vm_compute; reflexivity. Qed.

(** ** Witnesses *)

Lemma fetch_text_decodes_witness :
  @served flaky "u" 0%nat 3
    = [TimeoutError; ClientError "Connection reset by peer"]
        ++ Responded {| status := 200; text := None;
                        read := [Byte.x63; Byte.x61; Byte.x66; Byte.xe9] |} :: [] /\
  Forall (fun o => succeeded o = false)
    [TimeoutError; ClientError "Connection reset by peer"] /\
  result (@fetch_text flaky "u" 0%nat) = Some ("caf" +:+ String (chr 233) EmptyString).
Proof.
  assert (Hs : @served flaky "u" 0%nat 3
    = [TimeoutError; ClientError "Connection reset by peer"]
        ++ Responded {| status := 200; text := None;
                        read := [Byte.x63; Byte.x61; Byte.x66; Byte.xe9] |} :: [])
    by reflexivity.
  assert (Hf : Forall (fun o => succeeded o = false)
                 [TimeoutError; ClientError "Connection reset by peer"])
    by (repeat constructor).
  split; [exact Hs|]. split; [exact Hf|].
  exact (@fetch_text_decodes flaky "u" 0%nat _ _ _ Hs Hf eq_refl).
Defined.

Lemma download_books_defaults_witness :
  lower (language (result (@get_book_metadata library "777" 0%nat))) = "english" /\
  result (@get_book_data library "777" (final (@get_book_metadata library "777" 0%nat)))
    = Some ("caf" +:+ String (chr 233) EmptyString) /\
  exists record,
    result (@download_books library untitled 0%nat) = Some record /\
    Title record = "No Title" /\ Author record = "Unknown Author".
Proof.
  assert (He : lower (language (result (@get_book_metadata library "777" 0%nat)))
               = "english") by (vm_compute; reflexivity).
  assert (Hc : result (@get_book_data library "777"
                         (final (@get_book_metadata library "777" 0%nat)))
               = Some ("caf" +:+ String (chr 233) EmptyString))
    by (vm_compute; reflexivity).
  split; [exact He|]. split; [exact Hc|].
  destruct (@download_books_defaults library untitled 0%nat _ He Hc)
    as (record & Hr & Ht & Ha & _).
  exists record. split; [exact Hr|]. split; [apply Ht | apply Ha]; reflexivity.
Defined.

Lemma library_stops : @stops_within library 2 index_url0 [] ∅ 0%nat.
Proof.
  eapply (@stops_later library) with (page := "<index 1>");
    [vm_compute; reflexivity | reflexivity | discriminate | vm_compute; reflexivity |].
  cbn zeta.
  eapply (@stops_no_next library) with (page := "<index 2>");
    [vm_compute; reflexivity | reflexivity | discriminate | vm_compute; reflexivity].
Qed.

Lemma walk_terminates_witness :
  @stops_within library 2 index_url0 [] ∅ 0%nat /\
  exists bs, result (@walk library 2 index_url0 [] ∅ 0%nat) = Some bs.
Proof.
  split; [exact library_stops|].
  destruct (@walk_terminates library 2 2 index_url0 [] ∅ 0%nat) as (_ & Hstop).
  apply Hstop; [exact library_stops | lia].
Defined.

Lemma main_idempotent_witness :
  (∅ : gmap string (list BookRecord)) !! artifact = None /\
  (exists books, result (@get_books_list library 2 0%nat) = Some books) /\
  exists saved,
    result (@main library 2 ∅ 0%nat) = Some (Returned saved) /\
    events (@main library 2 ∅ 0%nat) = events (@get_books_list library 2 0%nat) /\
    @main library 0 saved (final (@main library 2 ∅ 0%nat))
    = (Some (Returned saved), [EPrint "Data already downloaded."],
       final (@main library 2 ∅ 0%nat)).
Proof.
  assert (Hnew : (∅ : gmap string (list BookRecord)) !! artifact = None)
    by reflexivity.
  destruct (result (@get_books_list library 2 0%nat)) as [books|] eqn:Hrun;
    [|vm_compute in Hrun; discriminate].
  split; [exact Hnew|]. split; [exists books; reflexivity|].
  destruct (save_to_csv books ∅) as [saved|] eqn:Hsave.
  - exists saved.
    destruct (@main_idempotent library 2 0 ∅ saved 0%nat books)
      as (Hfirst & _ & Hsecond).
    destruct (Hfirst Hnew Hrun) as (He & _ & Hr). rewrite Hsave in Hr.
    split; [exact Hr|]. split; [exact He|]. exact (Hsecond Hr).
  - exfalso. vm_compute in Hrun. injection Hrun as <-. discriminate.
Defined.

(** ** Counterexamples *)

Lemma missing_walk fuel url books processed w :
  result (@walk missing fuel url books processed w) = None.
Proof.
  revert w. induction fuel as [|fuel IH]; intros w; [reflexivity|].
  rewrite walk_step. cbn zeta.
  change (@fetch_text missing url w) with
    (@None string,
     [ EGet url; ELog ERROR ("Failed to fetch " +:+ url +:+ ": Status code 404");
       EGet url; ELog ERROR ("Failed to fetch " +:+ url +:+ ": Status code 404");
       EGet url; ELog ERROR ("Failed to fetch " +:+ url +:+ ": Status code 404") ],
     S (S (S w))).
  cbn [truthy result events final fst snd]. apply IH.
Qed.

Lemma carousel_walk fuel books processed w :
  result (@walk carousel fuel index_url0 books processed w) = None.
Proof.
  revert books processed w.
  induction fuel as [|fuel IH]; intros books processed w; [reflexivity|].
  rewrite walk_step. cbn zeta.
  change (@fetch_text carousel index_url0 w)
    with (Some "<index>", [EGet index_url0], S w).
  cbn [truthy result events final fst snd default from_option id].
  change (@select_booklink carousel "<index>") with [candide].
  change (@find_next carousel "<index>")
    with (Some "/ebooks/search/?sort_order=downloads&languages=en").
  cbn [result fst]. apply IH.
Qed.

Lemma blank_walk fuel url books processed w :
  result (@walk blank fuel url books processed w) = None.
Proof.
  revert w. induction fuel as [|fuel IH]; intros w; [reflexivity|].
  rewrite walk_step. cbn zeta.
  change (@fetch_text blank url w) with (Some EmptyString, [EGet url], S w).
  cbn [truthy result events final fst snd]. apply IH.
Qed.

(** C3, the claim as it stands fails: on an index whose page links to
    itself, on a server that answers 404 to the index, and on a server
    that answers the index with an empty page (a page fetched, which
    lists nothing), the walk has not returned after any number of
    turns. *)
Lemma walk_never_returns :
  (forall fuel, result (@get_books_list carousel fuel 0%nat) = None) /\
  (forall fuel, result (@get_books_list missing fuel 0%nat) = None) /\
  (forall fuel, result (@get_books_list blank fuel 0%nat) = None) /\
  result (@fetch_text blank index_url0 0%nat) = Some EmptyString /\
  @select_booklink blank EmptyString = [].
Proof.
  split; [|split; [|split; [|split; reflexivity]]]; intros fuel.
  - apply carousel_walk.
  - apply missing_walk.
  - apply blank_walk.
Qed.

(** C4, the claim as it stands fails: three timeouts are followed by the
    sleeps 1 and 2, never 4, and three answers 404 by no sleep at all. *)
Lemma fetch_text_sleeps_not_1_2_4 :
  sleeps (events (@fetch_text silent "u" 0%nat)) = [1; 2] /\
  gets (events (@fetch_text missing "u" 0%nat)) = ["u"; "u"; "u"] /\
  sleeps (events (@fetch_text missing "u" 0%nat)) = [].
Proof. repeat split. Qed.

(** C10, the claim as it stands fails: the first candidate, a no-images
    variant, yields the empty string, and the Locator goes on without
    logging it; its first log records are about the plain URLs. *)
Lemma no_images_not_logged :
  result (@fetch_text blank "https://www.gutenberg.org/files/1/1-0.epub.noimages" 0%nat)
    = Some EmptyString /\
  take 3 (gets (events (@get_book_data blank "1" 0%nat)))
    = [ "https://www.gutenberg.org/files/1/1-0.epub.noimages";
        "https://www.gutenberg.org/files/1/1-0.epub";
        "https://www.gutenberg.org/files/1/1-0.html.noimages" ] /\
  take 2 (logs (events (@get_book_data blank "1" 0%nat)))
    = [ (INFO, "No valid text at https://www.gutenberg.org/files/1/1-0.epub");
        (INFO, "No valid text at https://www.gutenberg.org/files/1/1-0.html") ] /\
  existsb (fun l => String.eqb (snd l)
             "No valid text at https://www.gutenberg.org/files/1/1-0.epub.noimages")
    (logs (events (@get_book_data blank "1" 0%nat))) = false.
Proof. repeat split; vm_compute; reflexivity. Qed.

End Runs.

(* ===================================================================== *)
(** * More runs on the scenarios *)
(* ===================================================================== *)

Module Checks.
Import Scenario TsvToTxt.

Example file_title_whale :
  file_path "2701" "Moby-Dick; or, The Whale" = "texts/2701_MobyDick or, The Whale.txt".
Proof. reflexivity. Qed.

Example english_filter :
  english {| year := "1998"; language := "ENGLISH" |} = true /\
  english {| year := "1998"; language := "English; French" |} = false /\
  english unknown = false.
Proof. repeat split. Qed.

Lemma clean_text_line_breaks_witness :
  string_forall printable "one" = true /\
  string_forall printable "two" = true /\
  clean_text ("one" +:+ String (chr 13) (String (chr 10) "two")) = "onetwo".
Proof.
  split; [reflexivity|]. split; [reflexivity|].
  exact (proj2 (clean_text_line_breaks "one" "two") eq_refl eq_refl).
Defined.

Lemma last_segment_round_trip_witness :
  string_forall not_slash "12345" = true /\
  last_segment ("/ebooks" +:+ String "/" "12345") = "12345".
Proof.
  split; [reflexivity|]. exact (last_segment_round_trip "/ebooks" "12345" eq_refl).
Defined.

Lemma file_path_in_texts_witness :
  string_forall not_slash "2701" = true /\
  last_segment (file_path "2701" "Moby-Dick; or, The Whale")
  = "2701" +:+ "_" +:+ file_title "Moby-Dick; or, The Whale" +:+ ".txt".
Proof.
  split; [reflexivity|].
  exact (file_path_in_texts "2701" "Moby-Dick; or, The Whale" eq_refl).
Defined.

Lemma download_books_unknown_witness :
  truthy (result (@fetch_text missing
            ("https://www.gutenberg.org/ebooks/" +:+ book_id_of moby) 0%nat)) = false /\
  @download_books missing moby 0%nat
  = (None,
     events (@fetch_text missing
               ("https://www.gutenberg.org/ebooks/" +:+ book_id_of moby) 0%nat)
       ++ [EUpdate],
     final (@fetch_text missing
              ("https://www.gutenberg.org/ebooks/" +:+ book_id_of moby) 0%nat)).
Proof.
  split; [reflexivity|].
  exact (@download_books_unknown missing moby 0%nat eq_refl).
Defined.

Lemma process_page_progress_witness :
  moby ∈ [moby; untitled] /\
  book_id_of moby ∈ ({[ "12345" ]} : gset string) /\
  (updates (events (@process_page library [moby; untitled] [] {[ "12345" ]} 0%nat)) < 2)%nat.
Proof.
  assert (Hin : moby ∈ [moby; untitled]) by left.
  assert (Hp : book_id_of moby ∈ ({[ "12345" ]} : gset string))
    by (apply elem_of_singleton; reflexivity).
  split; [exact Hin|]. split; [exact Hp|].
  destruct (@process_page_progress library [moby; untitled] [] {[ "12345" ]} 0%nat)
    as (_ & _ & _ & _ & Hlt).
  exact (Hlt moby Hin Hp).
Defined.

Lemma get_books_list_records_witness :
  exists books,
    result (@get_books_list library 2 0%nat) = Some books /\
    NoDup (ID <$> books) /\ Forall sound_record books.
Proof.
  destruct (result (@get_books_list library 2 0%nat)) as [books|] eqn:Hb;
    [|vm_compute in Hb; discriminate].
  exists books. split; [reflexivity|].
  exact (@get_books_list_records library 2 0%nat books Hb).
Defined.

Lemma missing_fetch_fails url w : truthy (result (@fetch_text missing url w)) = false.
Proof. reflexivity. Qed.

Lemma walk_retries_forever_witness :
  (forall w, truthy (result (@fetch_text missing index_url0 w)) = false) /\
  result (@walk missing 5 index_url0 [] ∅ 0%nat) = None /\
  (5 <= length (gets (events (@walk missing 5 index_url0 [] ∅ 0%nat))))%nat.
Proof.
  split; [exact (missing_fetch_fails index_url0)|].
  exact (@walk_retries_forever missing index_url0 (missing_fetch_fails index_url0)
           5%nat [] ∅ 0%nat).
Defined.

Lemma main_empty_run_witness :
  (∅ : gmap string (list BookRecord)) !! artifact = None /\
  result (@get_books_list french_only 1 0%nat) = Some [] /\
  result (@main french_only 1 ∅ 0%nat) = Some (Raised ∅) /\
  events (@main french_only 1 ∅ (final (@main french_only 1 ∅ 0%nat)))
  = events (@get_books_list french_only 1 (final (@main french_only 1 ∅ 0%nat))).
Proof.
  assert (Hnew : (∅ : gmap string (list BookRecord)) !! artifact = None) by reflexivity.
  assert (Hrun : result (@get_books_list french_only 1 0%nat) = Some [])
    by (vm_compute; reflexivity).
  split; [exact Hnew|]. split; [exact Hrun|].
  exact (@main_empty_run french_only 1 1 ∅ 0%nat Hnew Hrun).
Defined.

End Checks.
